(** * AI-SOC: ingestion, audit and retrieval pipelines of the MITRE ATT&CK
    knowledge assistant

    A shallow embedding of [scripts/process_mitre.py], [scripts/audit_mitre.py]
    and [backend/rag_chat.py], followed by the properties of the record
    filter, the document synthesizer, the identity resolver, the batch
    indexer, the retriever and the assistant loop.

    Conventions of the embedding.
    - A Python [str] is a [string]; every character is one [ascii], so
      [String.length] is Python's [len].
    - A JSON object is a record with one field per key the code reads.  A key
      is either absent ([None]) or holds a value of its STIX type; [d.get(k)]
      is the field itself and [d.get(k, dflt)] is [default dflt] of it.
    - External services (file system, Ollama, ChromaDB) are arguments: what a
      call answers is supplied by the caller of the model.
    - [print] is modelled by appending a structured line to the output. *)

From Stdlib Require Import ZArith Lia Ascii String.
From stdpp Require Import base list strings.

Open Scope string_scope.
Open Scope list_scope.

(** ** Python values and service replies *)

(** [f"{v}"] for a value that is a [str] or [None]. *)
Definition py_str (v : option string) : string := default "None" v.

(** [str(b)] for a [bool]. *)
Definition py_str_bool (b : bool) : string := if b then "True" else "False".

(** Truth value of an optional JSON boolean: an absent key reads [None]. *)
Definition truthy (v : option bool) : bool := default false v.

(** Truth value of a [str]: the empty string is false. *)
Definition nonempty (s : string) : bool := negb (String.eqb s "").

(** [c * n] for a one-character string [c]. *)
Fixpoint str_repeat (c : ascii) (n : nat) : string :=
  match n with
  | O => ""
  | S k => String c (str_repeat c k)
  end.

(** Answer of an external call: a value, or an [Exception] with its message. *)
Inductive reply (A : Type) : Type :=
  | Reply (a : A)
  | Failure (msg : string).
Arguments Reply {A} a.
Arguments Failure {A} msg.

(** How a script's [main()] ends, and the exit status the interpreter gives:
    a plain return is 0, [sys.exit(n)] is [n], an uncaught [Exception] is 1. *)
Inductive termination : Type :=
  | Returned
  | Uncaught (msg : string)
  | SysExit (code : Z).

Definition exit_code (t : termination) : Z :=
  match t with
  | Returned => 0
  | Uncaught _ => 1
  | SysExit c => c
  end.

(** ** The knowledge base *)

Record Reference : Type := {
  ref_source_name : option string;
  ref_external_id : option string;
  ref_url : option string
}.

Record KnowledgeObject : Type := {
  obj_id : option string;
  obj_type : option string;
  obj_name : option string;
  obj_description : option string;
  obj_revoked : option bool;
  obj_x_mitre_deprecated : option bool;
  obj_x_mitre_platforms : option (list string);
  obj_x_mitre_permissions_required : option (list string);
  obj_x_mitre_detection : option string;
  obj_external_references : option (list Reference)
}.

(** The parsed knowledge-base file: [data.get("objects", [])]. *)
Record KnowledgeBase : Type := {
  kb_objects : option (list KnowledgeObject)
}.

#[global] Instance Reference_eq_dec : EqDecision Reference.
Proof. solve_decision. Defined.

#[global] Instance KnowledgeObject_eq_dec : EqDecision KnowledgeObject.
Proof. solve_decision. Defined.

Definition ALLOWED_TYPES : list string :=
  ["attack-pattern"; "malware"; "tool"; "intrusion-set"; "course-of-action";
   "campaign"].

(** [obj.get("type") in ALLOWED_TYPES]; [None] is in no set of strings. *)
Definition type_allowed (obj : KnowledgeObject) : bool :=
  match obj_type obj with
  | Some t => bool_decide (t ∈ ALLOWED_TYPES)
  | None => false
  end.

(** [obj.get("revoked") or obj.get("x_mitre_deprecated")]. *)
Definition lifecycle_flagged (obj : KnowledgeObject) : bool :=
  truthy (obj_revoked obj) || truthy (obj_x_mitre_deprecated obj).

(** ** process_mitre.py: the record filter *)

(** One iteration of the loop of [load_mitre_data]. *)
Definition load_step (processed_objects : list KnowledgeObject)
    (obj : KnowledgeObject) : list KnowledgeObject :=
  if negb (type_allowed obj) then processed_objects
  else if lifecycle_flagged obj then processed_objects
  else processed_objects ++ [obj].

Definition filter_objects (objects : list KnowledgeObject)
    : list KnowledgeObject :=
  foldl load_step [] objects.

(** [file] is what is found at [file_path]: [None] when nothing exists there. *)
Definition load_mitre_data (file : option KnowledgeBase)
    : reply (list KnowledgeObject) :=
  match file with
  | None => Failure "MITRE file not found"
  | Some data => Reply (filter_objects (default [] (kb_objects data)))
  end.

(** ** process_mitre.py: the document synthesizer *)

Definition is_mitre_attack (ref : Reference) : bool :=
  bool_decide (ref_source_name ref = Some "mitre-attack").

Fixpoint extract_mitre_id (external_references : list Reference) : string :=
  match external_references with
  | [] => "UNKNOWN"
  | ref :: rest =>
      if is_mitre_attack ref then default "UNKNOWN" (ref_external_id ref)
      else extract_mitre_id rest
  end.

(** [normalize_list] on an absent key or a list of strings. *)
Definition normalize_list (item : option (list string)) : string :=
  match item with
  | Some l => String.concat ", " l
  | None => ""
  end.

Definition document_header (obj : KnowledgeObject) (mitre_id : option string)
    : string :=
  py_str mitre_id +:+ ": " +:+ default "Unknown" (obj_name obj)
    +:+ " (" +:+ py_str (obj_type obj) +:+ ")".

Definition document_parts (obj : KnowledgeObject) (mitre_id : option string)
    : list string :=
  let description := default "" (obj_description obj) in
  let platforms := normalize_list (obj_x_mitre_platforms obj) in
  let detection := default "" (obj_x_mitre_detection obj) in
  let permissions := normalize_list (obj_x_mitre_permissions_required obj) in
  let header := document_header obj mitre_id in
  let text_parts :=
    [header; str_repeat "=" (String.length header);
     "Description: " +:+ description] in
  let text_parts :=
    if nonempty platforms then text_parts ++ ["Platforms: " +:+ platforms]
    else text_parts in
  let text_parts :=
    if nonempty permissions
    then text_parts ++ ["Permissions Required: " +:+ permissions]
    else text_parts in
  let text_parts :=
    if nonempty detection then text_parts ++ ["Detection: " +:+ detection]
    else text_parts in
  text_parts.

(** The two-character separator is a pair of line feeds. *)
Definition NL : string := String "010" "".

Definition generate_document_text (obj : KnowledgeObject)
    (mitre_id : option string) : string :=
  String.concat (NL +:+ NL) (document_parts obj mitre_id).

(** ** process_mitre.py: metadata, identity resolution, the embedding loop *)

Record Metadata : Type := {
  meta_mitre_id : option string;
  meta_name : option string;
  meta_type : option string;
  meta_url : option string;
  meta_platforms : option string;
  meta_deprecated : option string
}.

(** [next((ref.get("url", "") for ref in refs if ...), "")]. *)
Fixpoint first_mitre_url (external_references : list Reference) : string :=
  match external_references with
  | [] => ""
  | ref :: rest =>
      if is_mitre_attack ref then default "" (ref_url ref)
      else first_mitre_url rest
  end.

(** Lines 117-119 of [main]: the domain id, with the native id as fallback. *)
Definition domain_id (obj : KnowledgeObject) : option string :=
  let mitre_id := extract_mitre_id (default [] (obj_external_references obj)) in
  if String.eqb mitre_id "UNKNOWN" then obj_id obj else Some mitre_id.

Definition build_metadata (obj : KnowledgeObject) (mitre_id : option string)
    : Metadata :=
  {| meta_mitre_id := mitre_id;
     meta_name := Some (default "Unknown" (obj_name obj));
     meta_type := obj_type obj;
     meta_url :=
       Some (first_mitre_url (default [] (obj_external_references obj)));
     meta_platforms := Some (normalize_list (obj_x_mitre_platforms obj));
     meta_deprecated :=
       Some (py_str_bool (default false (obj_x_mitre_deprecated obj))) |}.

(** Lines 155-158 of [main]: the key under which a record is indexed. *)
Definition resolve_id (ids : list (option string)) (mitre_id : option string)
    (native_id : option string) : option string :=
  if bool_decide (mitre_id ∈ ids)
  then Some (py_str mitre_id +:+ "_" +:+ py_str native_id)
  else mitre_id.

(** Lines written by [process_mitre.py]. *)
Inductive ingest_line : Type :=
  | PrLoading
  | PrFound (n : nat)
  | PrProcessingObjects
  | PrProgress (count total : nat)
  | PrEmbeddingError (msg : string)
  | PrSkipping (mitre_id : option string)
  | PrGenerated (n : nat)
  | PrInitializing
  | PrUpserting
  | PrUpsertingBatch (i stop : nat)
  | PrDone.

Section Ingestion.

(** An embedding vector is an opaque payload of the embedding service. *)
Context {Vec : Type}.

(** The local variables of [main] during the embedding loop, together with
    the number of requests sent to Ollama and the output written so far. *)
Record loop_state : Type := {
  documents : list string;
  metadatas : list Metadata;
  ids : list (option string);
  embeddings : list Vec;
  count : nat;
  ollama_calls : nat;
  printed : list ingest_line
}.

Definition loop_init (printed0 : list ingest_line) : loop_state :=
  {| documents := []; metadatas := []; ids := []; embeddings := [];
     count := 0; ollama_calls := 0; printed := printed0 |}.

(** [ollama n text] is the answer to the request number [n] (from 0) when it
    carries [text]. *)
Variable ollama : nat -> string -> reply Vec.

(** [get_embedding]: one request, no retry; a failure is printed and [None]
    is returned. *)
Definition get_embedding (calls : nat) (text : string)
    : option Vec * list ingest_line :=
  match ollama calls text with
  | Reply v => (Some v, [])
  | Failure e => (None, [PrEmbeddingError e])
  end.

(** One iteration of the [for obj in objects] loop of [main]. *)
Definition main_step (total : nat) (st : loop_state) (obj : KnowledgeObject)
    : loop_state :=
  let count' := S (count st) in
  let mitre_id := domain_id obj in
  let metadata := build_metadata obj mitre_id in
  let text_content := generate_document_text obj mitre_id in
  let progress :=
    if Nat.eqb (count' mod 10) 0 then [PrProgress count' total] else [] in
  let '(emb, err) := get_embedding (ollama_calls st) text_content in
  match emb with
  | None =>
      {| documents := documents st;
         metadatas := metadatas st;
         ids := ids st;
         embeddings := embeddings st;
         count := count';
         ollama_calls := S (ollama_calls st);
         printed := printed st ++ progress ++ err ++ [PrSkipping mitre_id] |}
  | Some v =>
      {| documents := documents st ++ [text_content];
         metadatas := metadatas st ++ [metadata];
         ids := ids st ++ [resolve_id (ids st) mitre_id (obj_id obj)];
         embeddings := embeddings st ++ [v];
         count := count';
         ollama_calls := S (ollama_calls st);
         printed := printed st ++ progress ++ err |}
  end.

Definition main_loop (printed0 : list ingest_line)
    (objects : list KnowledgeObject) : loop_state :=
  foldl (main_step (length objects)) (loop_init printed0) objects.

End Ingestion.

(** ** process_mitre.py: the batch indexer *)

(** [range(start, stop, step)] for a positive [step]: Python fixes its length
    as the rounded-up quotient and its item [k] as [start + k * step]. *)
Definition py_range (start stop step : nat) : list nat :=
  map (fun k => start + k * step) (seq 0 ((stop - start + step - 1) / step)).

(** The slice [l[i:stop]]. *)
Definition slice {A : Type} (i stop : nat) (l : list A) : list A :=
  take (stop - i) (drop i l).

Definition batch_size : nat := 100.

Section Indexing.

Context {Vec : Type}.

(** The arguments of one [collection.upsert] call. *)
Record upsert_call : Type := {
  up_documents : list string;
  up_embeddings : list Vec;
  up_metadatas : list Metadata;
  up_ids : list (option string)
}.

(** The bounds [i], [end] of the batch that starts at [i]. *)
Definition batch_bounds (len i : nat) : nat * nat :=
  (i, Nat.min (i + batch_size) len).

Definition batch_ranges (len : nat) : list (nat * nat) :=
  map (batch_bounds len) (py_range 0 len batch_size).

Definition batch_call (st : @loop_state Vec) (b : nat * nat) : upsert_call :=
  {| up_documents := slice b.1 b.2 (documents st);
     up_embeddings := slice b.1 b.2 (embeddings st);
     up_metadatas := slice b.1 b.2 (metadatas st);
     up_ids := slice b.1 b.2 (ids st) |}.

(** The upsert calls the loop of lines 171-179 issues when none fails. *)
Definition batch_calls (st : @loop_state Vec) : list upsert_call :=
  map (batch_call st) (batch_ranges (length (documents st))).

(** The loop with the store's answers: [upsert k c] answers call number [k].
    The calls that were answered are returned; the first failure is not
    caught and ends the run. *)
Fixpoint upsert_loop (upsert : nat -> upsert_call -> reply unit)
    (st : @loop_state Vec) (k : nat) (ranges : list (nat * nat))
    : list ingest_line * list upsert_call * termination :=
  match ranges with
  | [] => ([], [], Returned)
  | b :: rest =>
      let c := batch_call st b in
      match upsert k c with
      | Failure e => ([PrUpsertingBatch b.1 b.2], [], Uncaught e)
      | Reply _ =>
          let '(lines, calls, t) := upsert_loop upsert st (S k) rest in
          (PrUpsertingBatch b.1 b.2 :: lines, c :: calls, t)
      end
  end.

(** What the ingestion script meets: the file at [MITRE_FILE_PATH], Ollama,
    and the ChromaDB client, collection and upsert operation. *)
Record ingest_env : Type := {
  env_file : option KnowledgeBase;
  env_ollama : nat -> string -> reply Vec;
  env_client : reply unit;
  env_collection : reply unit;
  env_upsert : nat -> upsert_call -> reply unit
}.

Record ingest_run : Type := {
  run_printed : list ingest_line;
  run_upserts : list upsert_call;
  run_end : termination
}.

(** [main()] of process_mitre.py. *)
Definition process_mitre_main (env : ingest_env) : ingest_run :=
  match load_mitre_data (env_file env) with
  | Failure e =>
      {| run_printed := [PrLoading]; run_upserts := [];
         run_end := Uncaught e |}
  | Reply objects =>
      let st :=
        main_loop (env_ollama env)
          [PrLoading; PrFound (length objects); PrProcessingObjects]
          objects in
      let out :=
        printed st ++ [PrGenerated (length (embeddings st)); PrInitializing] in
      match env_client env, env_collection env with
      | Failure e, _ | Reply _, Failure e =>
          {| run_printed := out; run_upserts := []; run_end := Uncaught e |}
      | Reply _, Reply _ =>
          let '(lines, calls, t) :=
            upsert_loop (env_upsert env) st 0
              (batch_ranges (length (documents st))) in
          {| run_printed :=
               out ++ [PrUpserting] ++ lines
               ++ match t with Returned => [PrDone] | _ => [] end;
             run_upserts := calls;
             run_end := t |}
      end
  end.

End Indexing.

(** ** audit_mitre.py *)

(** Lines written by [audit_mitre.py]. *)
Inductive audit_line : Type :=
  | AuBanner
  | AuReading
  | AuSourceNotFound
  | AuTotal (n : nat)
  | AuSkippedTypes (n : nat)
  | AuSkippedRevoked (n : nat)
  | AuExpected (n : nat)
  | AuConnecting
  | AuNoCollection
  | AuActual (n : nat)
  | AuSuccess
  | AuMissing (diff : Z)
  | AuExtra (diff : Z)
  | AuConnectError (msg : string).

(** The three locals of the audit loop; its [ALLOWED_TYPES] is the same
    literal as in process_mitre.py. *)
Record audit_state : Type := {
  relevant_objects : list KnowledgeObject;
  skipped_types : nat;
  skipped_revoked : nat
}.

Definition audit_step (st : audit_state) (obj : KnowledgeObject)
    : audit_state :=
  if negb (type_allowed obj) then
    {| relevant_objects := relevant_objects st;
       skipped_types := skipped_types st + 1;
       skipped_revoked := skipped_revoked st |}
  else if lifecycle_flagged obj then
    {| relevant_objects := relevant_objects st;
       skipped_types := skipped_types st;
       skipped_revoked := skipped_revoked st + 1 |}
  else
    {| relevant_objects := relevant_objects st ++ [obj];
       skipped_types := skipped_types st;
       skipped_revoked := skipped_revoked st |}.

Definition audit_loop (all_objects : list KnowledgeObject) : audit_state :=
  foldl audit_step
    {| relevant_objects := []; skipped_types := 0; skipped_revoked := 0 |}
    all_objects.

(** The class the audit loop puts an object in. *)
Inductive audit_class : Type := Included | SkippedByType | SkippedByLifecycle.

#[global] Instance audit_class_eq_dec : EqDecision audit_class.
Proof. solve_decision. Defined.

Definition classify (obj : KnowledgeObject) : audit_class :=
  if negb (type_allowed obj) then SkippedByType
  else if lifecycle_flagged obj then SkippedByLifecycle
  else Included.

(** The diagnosis of lines 67-80. *)
Definition audit_diagnosis (expected db_count : nat) : list audit_line :=
  let diff := (Z.of_nat expected - Z.of_nat db_count)%Z in
  if (diff =? 0)%Z then [AuSuccess]
  else if (0 <? diff)%Z then [AuMissing diff]
  else [AuExtra (Z.abs diff)].

(** [main()] of audit_mitre.py.  [collection] answers [get_collection] and
    [db_count] answers [collection.count()]. *)
Definition audit_mitre_main (file : option KnowledgeBase)
    (client collection : reply unit) (db_count : reply nat)
    : list audit_line * termination :=
  match file with
  | None => ([AuBanner; AuReading; AuSourceNotFound], Returned)
  | Some data =>
      let all_objects := default [] (kb_objects data) in
      let st := audit_loop all_objects in
      let expected := length (relevant_objects st) in
      let out :=
        [AuBanner; AuReading; AuTotal (length all_objects);
         AuSkippedTypes (skipped_types st);
         AuSkippedRevoked (skipped_revoked st);
         AuExpected expected; AuConnecting] in
      match client with
      | Failure e => (out ++ [AuConnectError e], Returned)
      | Reply _ =>
          match collection with
          | Failure _ => (out ++ [AuNoCollection], Returned)
          | Reply _ =>
              match db_count with
              | Failure e => (out ++ [AuConnectError e], Returned)
              | Reply n =>
                  (out ++ [AuActual n] ++ audit_diagnosis expected n, Returned)
              end
          end
      end
  end.

(** ** rag_chat.py: the retriever *)

(** Answer of a call made inside the chat loop: besides a value or an
    [Exception], the user may interrupt it ([KeyboardInterrupt], which
    [except Exception] does not catch). *)
Inductive outcome (A : Type) : Type :=
  | Ok (a : A)
  | Error (msg : string)
  | Interrupt.
Arguments Ok {A} a.
Arguments Error {A} msg.
Arguments Interrupt {A}.

(** Lines written by [rag_chat.py]. *)
Inductive chat_line : Type :=
  | ChConnecting
  | ChConnected
  | ChConnectFailed (msg : string)
  | ChReady
  | ChSearching
  | ChClearLine
  | ChRetrieveError (msg : string)
  | ChThinking
  | ChAssistant
  | ChContent (content : string)
  | ChEndOfAnswer
  | ChExiting
  | ChError (msg : string).

(** What [collection.query] returns: one list of documents and one list of
    metadata per query embedding; either key may hold [None], and so may a
    metadata entry. *)
Record QueryResult : Type := {
  res_documents : option (list (list string));
  res_metadatas : option (list (list (option Metadata)))
}.

Definition SEPARATOR : string := NL +:+ NL +:+ "---" +:+ NL +:+ NL.

(** Lines 30-31: one formatted block. *)
Definition format_block (meta : Metadata) (doc : string) : string :=
  "Source: " +:+ py_str (meta_mitre_id meta) +:+ " ("
    +:+ py_str (meta_name meta) +:+ ")" +:+ NL +:+ doc.

(** [results['metadatas'][0]], which raises on [None] and on an empty list. *)
Definition first_metadatas (results : QueryResult)
    : reply (list (option Metadata)) :=
  match res_metadatas results with
  | None => Failure "TypeError"
  | Some [] => Failure "IndexError"
  | Some (metas :: _) => Reply metas
  end.

(** The [for i, doc in enumerate(...)] loop from index [i] on. *)
Fixpoint format_loop (results : QueryResult) (i : nat) (docs : list string)
    (context_parts : list string) : reply (list string) :=
  match docs with
  | [] => Reply context_parts
  | doc :: rest =>
      match first_metadatas results with
      | Failure e => Failure e
      | Reply metas =>
          match metas !! i with
          | None => Failure "IndexError"
          | Some None => Failure "AttributeError"
          | Some (Some meta) =>
              format_loop results (S i) rest
                (context_parts ++ [format_block meta doc])
          end
      end
  end.

Section Retrieval.

Context {Vec : Type}.

(** The answers of Ollama to the prompt and of the collection to the query. *)
Variable embed : string -> outcome Vec.
Variable query : Vec -> nat -> outcome QueryResult.

(** The body of the [try] of [get_context]. *)
Definition get_context_body (query_text : string) (n_results : nat)
    : outcome string :=
  match embed query_text with
  | Interrupt => Interrupt
  | Error e => Error e
  | Ok query_embedding =>
      match query query_embedding n_results with
      | Interrupt => Interrupt
      | Error e => Error e
      | Ok results =>
          let context_parts :=
            match res_documents results with
            | Some (docs :: _) => format_loop results 0 docs []
            | _ => Reply []
            end in
          match context_parts with
          | Failure e => Error e
          | Reply parts => Ok (String.concat SEPARATOR parts)
          end
      end
  end.

(** [get_context]: [Some] of the returned context, or [None] when a
    [KeyboardInterrupt] leaves the function. *)
Definition get_context (query_text : string) (n_results : nat)
    : list chat_line * option string :=
  match get_context_body query_text n_results with
  | Ok context => ([], Some context)
  | Error e => ([ChRetrieveError e], Some "")
  | Interrupt => ([], None)
  end.

End Retrieval.

(** ** rag_chat.py: the assistant loop *)

(** [c.isspace()] for a character below 256. *)
Definition is_space (c : ascii) : bool :=
  let n := nat_of_ascii c in
  (Nat.leb 9 n && Nat.leb n 13) || (Nat.leb 28 n && Nat.leb n 32)
  || Nat.eqb n 133 || Nat.eqb n 160.

(** [c.lower()] for a character below 256. *)
Definition lower_char (c : ascii) : ascii :=
  let n := nat_of_ascii c in
  if (Nat.leb 65 n && Nat.leb n 90)
     || (Nat.leb 192 n && Nat.leb n 222 && negb (Nat.eqb n 215))
  then ascii_of_nat (n + 32) else c.

Fixpoint lower (s : string) : string :=
  match s with
  | "" => ""
  | String c rest => String (lower_char c) (lower rest)
  end.

Fixpoint lstrip (s : string) : string :=
  match s with
  | "" => ""
  | String c rest => if is_space c then lstrip rest else s
  end.

Fixpoint rstrip (s : string) : string :=
  match s with
  | "" => ""
  | String c rest =>
      match rstrip rest with
      | "" => if is_space c then "" else String c ""
      | kept => String c kept
      end
  end.

Definition strip (s : string) : string := rstrip (lstrip s).

(** [user_input.lower() in ['exit', 'quit']]. *)
Definition is_exit_command (user_input : string) : bool :=
  bool_decide (lower user_input ∈ ["exit"; "quit"]).

Definition system_prompt (context : string) : string :=
  "You are an expert AI SOC Analyst assistant. "
  +:+ "Use the provided MITRE ATT&CK context to answer the user's question accurately. "
  +:+ "If the answer is not in the context, use your general knowledge but mention that it's not in the specific retrieved data."
  +:+ NL +:+ NL +:+ "CONTEXT:" +:+ NL +:+ context.

(** A chat message: role and content. *)
Definition build_messages (context user_input : string)
    : list (string * string) :=
  [("system", system_prompt context); ("user", user_input)].

(** Where the generation of an answer stands: the request is being sent, or
    the stream is being read with the text received so far. *)
Inductive generation : Type :=
  | Calling (messages : list (string * string))
  | Streaming (full_response : string).

Inductive chat_state : Type :=
  | AwaitingInput
  | Retrieving (user_input : string)
  | Generating (g : generation)
  | Terminated.

Section AssistantLoop.

Context {Vec : Type}.

(** What the loop waits for: a line from [input()], the answers of the
    embedding service and of the store to the retrieval, the return of
    [ollama.chat], and the next item of the stream ([None] at its end). *)
Inductive event : Type :=
  | EvInput (r : outcome string)
  | EvRetrieval (embedded : outcome Vec) (queried : outcome QueryResult)
  | EvChat (r : outcome unit)
  | EvChunk (r : outcome (option string)).

(** The two [except] clauses of the loop. *)
Definition on_interrupt : chat_state * list chat_line :=
  (Terminated, [ChExiting]).

Definition on_error (e : string) : chat_state * list chat_line :=
  (AwaitingInput, [ChError e]).

(** One transition of the [while True] loop; [None] when the event is not
    the one the state waits for. *)
Definition step (s : chat_state) (ev : event)
    : option (chat_state * list chat_line) :=
  match s, ev with
  | AwaitingInput, EvInput (Ok line) =>
      let user_input := strip line in
      if is_exit_command user_input then Some (Terminated, [])
      else if negb (nonempty user_input) then Some (AwaitingInput, [])
      else Some (Retrieving user_input, [ChSearching])
  | AwaitingInput, EvInput (Error e) => Some (on_error e)
  | AwaitingInput, EvInput Interrupt => Some on_interrupt
  | Retrieving user_input, EvRetrieval embedded queried =>
      match get_context (fun _ => embedded) (fun _ _ => queried)
              user_input 3 with
      | (lines, Some context) =>
          Some (Generating (Calling (build_messages context user_input)),
                lines ++ [ChClearLine; ChThinking])
      | (lines, None) => Some (Terminated, lines ++ [ChExiting])
      end
  | Generating (Calling _), EvChat (Ok _) =>
      Some (Generating (Streaming ""), [ChAssistant])
  | Generating (Calling _), EvChat (Error e) => Some (on_error e)
  | Generating (Calling _), EvChat Interrupt => Some on_interrupt
  | Generating (Streaming full_response), EvChunk (Ok (Some content)) =>
      Some (Generating (Streaming (full_response +:+ content)),
            [ChContent content])
  | Generating (Streaming _), EvChunk (Ok None) =>
      Some (AwaitingInput, [ChEndOfAnswer])
  | Generating (Streaming _), EvChunk (Error e) => Some (on_error e)
  | Generating (Streaming _), EvChunk Interrupt => Some on_interrupt
  | _, _ => None
  end.

(** The loop over the events that have occurred so far. *)
Fixpoint run (s : chat_state) (events : list event)
    : option (chat_state * list chat_line) :=
  match events with
  | [] => Some (s, [])
  | ev :: rest =>
      match step s ev with
      | None => None
      | Some (s', lines) =>
          match run s' rest with
          | None => None
          | Some (s'', lines') => Some (s'', lines ++ lines')
          end
      end
  end.

(** How [chat_loop] stands: it left through [sys.exit(1)], or it is in the
    loop in some state. *)
Inductive chat_status : Type :=
  | SetupFailed
  | InLoop (s : chat_state).

(** [chat_loop()]: [client] answers [PersistentClient] and [collection]
    answers [get_collection]. *)
Definition chat_loop (client collection : reply unit) (events : list event)
    : option (chat_status * list chat_line) :=
  match client, collection with
  | Failure e, _ | Reply _, Failure e =>
      Some (SetupFailed, [ChConnecting; ChConnectFailed e])
  | Reply _, Reply _ =>
      match run AwaitingInput events with
      | None => None
      | Some (s, lines) =>
          Some (InLoop s, [ChConnecting; ChConnected; ChReady] ++ lines)
      end
  end.

(** The way the script has ended, if it has. *)
Definition chat_end (st : chat_status) : option termination :=
  match st with
  | SetupFailed => Some (SysExit 1)
  | InLoop Terminated => Some Returned
  | InLoop _ => None
  end.

End AssistantLoop.

(** ** Notions the properties are stated with *)

(** The inclusion policy in the words of the specification: the type is in the
    allow-set and neither lifecycle flag is set. *)
Definition eligible (obj : KnowledgeObject) : bool :=
  type_allowed obj && negb (lifecycle_flagged obj).

(** The number of objects of a corpus that fall in a class. *)
Definition class_count (c : audit_class) (objects : list KnowledgeObject)
    : nat :=
  length (List.filter (fun obj => bool_decide (classify obj = c)) objects).

(** The index ranges covered by a list of batches, in order. *)
Definition covered_indices (ranges : list (nat * nat)) : list nat :=
  concat (map (fun b : nat * nat => seq b.1 (b.2 - b.1)) ranges).

(** The text sent to the embedding service for an object. *)
Definition document_of (obj : KnowledgeObject) : string :=
  generate_document_text obj (domain_id obj).

Section EmbeddedRecords.

Context {Vec : Type}.
Variable ollama : nat -> string -> reply Vec.

(** The objects whose embedding request is answered, with the vectors, when
    the first of them is sent as request number [calls]. *)
Fixpoint embedded_from (calls : nat) (objects : list KnowledgeObject)
    : list (KnowledgeObject * Vec) :=
  match objects with
  | [] => []
  | obj :: rest =>
      match ollama calls (document_of obj) with
      | Reply v => (obj, v) :: embedded_from (S calls) rest
      | Failure _ => embedded_from (S calls) rest
      end
  end.

(** The objects whose embedding request fails. *)
Fixpoint failed_from (calls : nat) (objects : list KnowledgeObject)
    : list KnowledgeObject :=
  match objects with
  | [] => []
  | obj :: rest =>
      match ollama calls (document_of obj) with
      | Reply _ => failed_from (S calls) rest
      | Failure _ => obj :: failed_from (S calls) rest
      end
  end.

(** The records that reach the identity resolver in a run. *)
Definition embedded_records (objects : list KnowledgeObject)
    : list KnowledgeObject :=
  map fst (embedded_from 0 objects).

End EmbeddedRecords.

(** The keys given to a sequence of records, one after the other. *)
Definition assign_ids (ids0 : list (option string))
    (records : list KnowledgeObject) : list (option string) :=
  foldl (fun ids obj => ids ++ [resolve_id ids (domain_id obj) (obj_id obj)])
    ids0 records.

(** The composite key of a record. *)
Definition composite_key (obj : KnowledgeObject) : option string :=
  Some (py_str (domain_id obj) +:+ "_" +:+ py_str (obj_id obj)).

Definition is_skipping (l : ingest_line) : bool :=
  match l with
  | PrSkipping _ => true
  | _ => false
  end.

Definition is_batch_line (l : ingest_line) : bool :=
  match l with
  | PrUpsertingBatch _ _ => true
  | _ => false
  end.

(** No character of the string is an underscore. *)
Fixpoint no_underscore (s : string) : bool :=
  match s with
  | "" => true
  | String c rest => negb (Ascii.eqb c "_") && no_underscore rest
  end.

(** No domain id of the records holds an underscore; native ids may. *)
Definition plain_ids (records : list KnowledgeObject) : Prop :=
  Forall (fun obj => no_underscore (py_str (domain_id obj)) = true) records.

Definition native_ids (records : list KnowledgeObject) : list string :=
  map (fun obj => py_str (obj_id obj)) records.

(** A bare object with a native id and one [mitre-attack] reference. *)
Definition technique (native_id external_id : string) : KnowledgeObject :=
  {| obj_id := Some native_id;
     obj_type := Some "attack-pattern";
     obj_name := Some "Technique";
     obj_description := None;
     obj_revoked := None;
     obj_x_mitre_deprecated := None;
     obj_x_mitre_platforms := None;
     obj_x_mitre_permissions_required := None;
     obj_x_mitre_detection := None;
     obj_external_references :=
       Some [ {| ref_source_name := Some "mitre-attack";
                 ref_external_id := Some external_id;
                 ref_url := None |} ] |}.

(** Three objects with distinct native ids; the domain id of the second is
    the composite key of the third. *)
Definition sample_colliding : list KnowledgeObject :=
  [ technique "attack-pattern--1" "T1055";
    technique "attack-pattern--2" "T1055_attack-pattern--3";
    technique "attack-pattern--3" "T1055" ].

(** Two objects that share a domain id, and a third with its own. *)
Definition sample_shared : list KnowledgeObject :=
  [ technique "attack-pattern--1" "T1055";
    technique "attack-pattern--2" "T1055";
    technique "attack-pattern--3" "T1547" ].

(** Three objects with distinct native ids; the domain id of the third is
    the composite key of the second and occurs for the first time. *)
Definition sample_shadowed : list KnowledgeObject :=
  [ technique "attack-pattern--1" "T1055";
    technique "attack-pattern--2" "T1055";
    technique "attack-pattern--3" "T1055_attack-pattern--2" ].

(** The same with native ids that hold underscores. *)
Definition sample_shared_underscores : list KnowledgeObject :=
  [ technique "attack_pattern--1" "T1055";
    technique "attack_pattern--2" "T1055";
    technique "attack_pattern--3" "T1547" ].

(** An embedding service that answers every request with the same vector. *)
Definition always_embedded : nat -> string -> reply (list Z) :=
  fun _ _ => Reply [0%Z].

(** A line that is written only when its condition holds. *)
Definition optional_line (present : bool) (line : string) : list string :=
  if present then [line] else [].

(** The specification's reading of a non-empty source field: a list with at
    least one item, a string with at least one character. *)
Definition spec_list_field_nonempty (field : option (list string)) : bool :=
  match field with
  | Some (_ :: _) => true
  | _ => false
  end.

Definition spec_text_field_nonempty (field : option string) : bool :=
  nonempty (default "" field).

(** The document text as the specification describes it: every optional line
    is written exactly when its source field is non-empty. *)
Definition spec_document_text (obj : KnowledgeObject)
    (mitre_id : option string) : string :=
  let header := document_header obj mitre_id in
  String.concat (NL +:+ NL)
    ([header; str_repeat "=" (String.length header);
      "Description: " +:+ default "" (obj_description obj)]
     ++ optional_line (spec_list_field_nonempty (obj_x_mitre_platforms obj))
          ("Platforms: " +:+ normalize_list (obj_x_mitre_platforms obj))
     ++ optional_line
          (spec_list_field_nonempty (obj_x_mitre_permissions_required obj))
          ("Permissions Required: "
           +:+ normalize_list (obj_x_mitre_permissions_required obj))
     ++ optional_line (spec_text_field_nonempty (obj_x_mitre_detection obj))
          ("Detection: " +:+ default "" (obj_x_mitre_detection obj))).

(** A list field yields text unless it is absent, empty, or holds the empty
    string alone. *)
Definition list_field_has_text (field : option (list string)) : bool :=
  match field with
  | None | Some [] | Some [""] => false
  | Some _ => true
  end.

(** An object whose platform list holds one empty string. *)
Definition sample_blank_platform : KnowledgeObject :=
  {| obj_id := Some "tool--0007";
     obj_type := Some "tool";
     obj_name := Some "Mimikatz";
     obj_description := Some "Credential dumper.";
     obj_revoked := None;
     obj_x_mitre_deprecated := None;
     obj_x_mitre_platforms := Some [""];
     obj_x_mitre_permissions_required := None;
     obj_x_mitre_detection := None;
     obj_external_references :=
       Some [ {| ref_source_name := Some "mitre-attack";
                 ref_external_id := Some "S0002";
                 ref_url := None |} ] |}.

(** The event is a [KeyboardInterrupt] raised by the call the loop waits for. *)
Definition interrupted {Vec : Type} (ev : @event Vec) : bool :=
  match ev with
  | EvInput Interrupt
  | EvRetrieval Interrupt _
  | EvRetrieval (Ok _) Interrupt
  | EvChat Interrupt
  | EvChunk Interrupt => true
  | _ => false
  end.

(** The event is an input line that holds an exit keyword. *)
Definition exit_requested {Vec : Type} (ev : @event Vec) : bool :=
  match ev with
  | EvInput (Ok line) => is_exit_command (strip line)
  | _ => false
  end.

(** The events of the answer to one request: the call returns, the stream
    delivers [contents] and ends. *)
Definition answer_events {Vec : Type} (contents : list string)
    : list (@event Vec) :=
  EvChat (Ok ()) :: map (fun c => EvChunk (Ok (Some c))) contents
  ++ [EvChunk (Ok None)].

(** An object whose first [mitre-attack] reference carries no [external_id],
    although a later one does. *)
Definition sample_no_external_id : KnowledgeObject :=
  {| obj_id := Some "attack-pattern--0001";
     obj_type := Some "attack-pattern";
     obj_name := Some "Process Injection";
     obj_description := Some "Adversaries may inject code.";
     obj_revoked := None;
     obj_x_mitre_deprecated := None;
     obj_x_mitre_platforms := Some ["Windows"; "Linux"];
     obj_x_mitre_permissions_required := None;
     obj_x_mitre_detection := None;
     obj_external_references :=
       Some [ {| ref_source_name := Some "capec";
                 ref_external_id := Some "CAPEC-640";
                 ref_url := None |};
              {| ref_source_name := Some "mitre-attack";
                 ref_external_id := None;
                 ref_url := Some "https://attack.mitre.org/techniques/T1055" |};
              {| ref_source_name := Some "mitre-attack";
                 ref_external_id := Some "T1055";
                 ref_url := None |} ] |}.

(** An ingestion run over [sample_shared] in which the second embedding
    request fails and everything else succeeds. *)
Definition sample_env : @ingest_env (list Z) :=
  {| env_file := Some {| kb_objects := Some sample_shared |};
     env_ollama :=
       fun n _ => if Nat.eqb n 1 then Failure "connection refused"
                  else Reply [0%Z];
     env_client := Reply ();
     env_collection := Reply ();
     env_upsert := fun _ _ => Reply () |}.

(** A corpus of 250 techniques with distinct native and domain ids, and an
    ingestion run over it in which every service answers. *)
Definition sample_corpus_250 : list KnowledgeObject :=
  map (fun k => technique ("attack-pattern--" +:+ str_repeat "i" k)
                  ("T" +:+ str_repeat "i" k))
    (seq 1 250).

Definition sample_env_250 : @ingest_env (list Z) :=
  {| env_file := Some {| kb_objects := Some sample_corpus_250 |};
     env_ollama := always_embedded;
     env_client := Reply ();
     env_collection := Reply ();
     env_upsert := fun _ _ => Reply () |}.

(** A store that answers every query with the same two entries. *)
Definition sample_hits : QueryResult :=
  {| res_documents := Some [["First document"; "Second document"]];
     res_metadatas :=
       Some [map Some
               [ build_metadata (technique "attack-pattern--1" "T1055")
                   (Some "T1055");
                 build_metadata (technique "attack-pattern--3" "T1547")
                   (Some "T1547") ]] |}.

(** ** test_run.py *)

(** Lines written by [test_run.py]. *)
Inductive test_line : Type :=
  | TrResult (number : nat) (name : string)
  | TrDocument (doc : string).

Definition TEST_QUERY : string := "what is filemod in windows start up folder?".

(** The [for i, doc in enumerate(...)] loop of the script from index [i] on:
    [results['metadatas'][0][i]['name']] is read before anything is printed
    for the item, and no exception is caught. *)
Fixpoint test_run_loop (results : QueryResult) (i : nat) (docs : list string)
    : list test_line * termination :=
  match docs with
  | [] => ([], Returned)
  | doc :: rest =>
      match first_metadatas results with
      | Failure e => ([], Uncaught e)
      | Reply metas =>
          match metas !! i with
          | None => ([], Uncaught "IndexError")
          | Some None => ([], Uncaught "TypeError")
          | Some (Some meta) =>
              match meta_name meta with
              | None => ([], Uncaught "KeyError")
              | Some name =>
                  let '(lines, t) := test_run_loop results (S i) rest in
                  (TrResult (S i) name :: TrDocument doc :: lines, t)
              end
          end
      end
  end.

Section TestRun.

Context {Vec : Type}.

(** The script: [client] answers [PersistentClient], [collection] answers
    [get_collection], [embed] and [query] answer Ollama and the store. *)
Definition test_run (client collection : reply unit)
    (embed : string -> reply Vec) (query : Vec -> nat -> reply QueryResult)
    : list test_line * termination :=
  match client with
  | Failure e => ([], Uncaught e)
  | Reply _ =>
      match collection with
      | Failure e => ([], Uncaught e)
      | Reply _ =>
          match embed TEST_QUERY with
          | Failure e => ([], Uncaught e)
          | Reply query_embedding =>
              match query query_embedding 3 with
              | Failure e => ([], Uncaught e)
              | Reply results =>
                  match res_documents results with
                  | None => ([], Uncaught "TypeError")
                  | Some [] => ([], Uncaught "IndexError")
                  | Some (docs :: _) => test_run_loop results 0 docs
                  end
              end
          end
      end
  end.

End TestRun.

(** ** Further notions the properties are stated with *)

Definition is_progress (l : ingest_line) : bool :=
  match l with
  | PrProgress _ _ => true
  | _ => false
  end.

(** The lines of a successful listing: a numbered name and the document, for
    every returned pair, numbered from [first]. *)
Fixpoint listing (first : nat) (docs : list string) (names : list string)
    : list test_line :=
  match docs, names with
  | doc :: docs', name :: names' =>
      TrResult first name :: TrDocument doc :: listing (S first) docs' names'
  | _, _ => []
  end.

Definition first_char (s : string) : option ascii :=
  match s with
  | "" => None
  | String c _ => Some c
  end.

Fixpoint last_char (s : string) : option ascii :=
  match s with
  | "" => None
  | String c "" => Some c
  | String _ rest => last_char rest
  end.

(** Every character of the string is white space. *)
Fixpoint all_space (s : string) : bool :=
  match s with
  | "" => true
  | String c rest => is_space c && all_space rest
  end.

(** [a + b] for the strings received from the stream, in order. *)
Definition received (contents : list string) : string :=
  foldl String.append "" contents.


(** An ingestion run over [sample_shared] in which every embedding succeeds
    and the store refuses every upsert. *)
Definition sample_env_store_down : @ingest_env (list Z) :=
  {| env_file := Some {| kb_objects := Some sample_shared |};
     env_ollama := always_embedded;
     env_client := Reply ();
     env_collection := Reply ();
     env_upsert := fun _ _ => Failure "disk full" |}.

(** An answer of the store with two documents and one metadata entry. *)
Definition sample_short_hits : QueryResult :=
  {| res_documents := Some [["First document"; "Second document"]];
     res_metadatas :=
       Some [map Some
               [ build_metadata (technique "attack-pattern--1" "T1055")
                   (Some "T1055") ]] |}.

(** * Properties *)

(** ** Strings *)

Lemma append_empty s : "" +:+ s = s.
Proof. reflexivity. Qed.

Lemma append_cons c s1 s2 : String c s1 +:+ s2 = String c (s1 +:+ s2).
Proof. reflexivity. Qed.

Lemma str_repeat_length c n : String.length (str_repeat c n) = n.
Proof. induction n as [|n IH]; cbn; [done|]. by rewrite IH. Qed.

Lemma nonempty_append_comma x rest : nonempty (x +:+ ", " +:+ rest) = true.
Proof. by destruct x. Qed.

Lemma composite_inj d1 d2 n1 n2 :
  no_underscore d1 = true -> no_underscore d2 = true ->
  d1 +:+ "_" +:+ n1 = d2 +:+ "_" +:+ n2 -> d1 = d2 /\ n1 = n2.
Proof.
  revert d2. induction d1 as [|c d1 IH]; intros [|c2 d2] H1 H2 E;
    repeat first [rewrite append_empty in E | rewrite append_cons in E];
    cbn in H1, H2.
  - by injection E as ->.
  - injection E as <- _. done.
  - injection E as -> _. done.
  - injection E as -> E. apply andb_true_iff in H1 as [_ H1].
    apply andb_true_iff in H2 as [_ H2].
    destruct (IH d2 H1 H2 E) as [-> ->]. done.
Qed.

Lemma composite_has_underscore d n :
  no_underscore (d +:+ "_" +:+ n) = false.
Proof.
  induction d as [|c d IH]; [done|].
  rewrite append_cons. cbn [no_underscore]. rewrite IH. apply andb_false_r.
Qed.

(** ** The record filter *)

Lemma load_step_eligible processed obj :
  load_step processed obj = processed ++ (if eligible obj then [obj] else []).
Proof.
  unfold load_step, eligible.
  destruct (type_allowed obj), (lifecycle_flagged obj); simpl;
    by rewrite ?app_nil_r.
Qed.

Lemma foldl_load_step objects processed :
  foldl load_step processed objects
  = processed ++ List.filter eligible objects.
Proof.
  revert processed. induction objects as [|obj objects IH]; intros processed.
  - by rewrite app_nil_r.
  - cbn [foldl List.filter]. rewrite IH, load_step_eligible.
    destruct (eligible obj); by rewrite <- app_assoc.
Qed.

Lemma filter_objects_filter objects :
  filter_objects objects = List.filter eligible objects.
Proof. unfold filter_objects. by rewrite foldl_load_step. Qed.

Lemma list_filter_sublist {A} (f : A -> bool) l :
  List.filter f l `sublist_of` l.
Proof.
  induction l as [|x l IH]; cbn; [constructor|].
  destruct (f x); by constructor.
Qed.

Lemma eligible_spec obj :
  eligible obj = true <->
  (exists t, obj_type obj = Some t /\ t ∈ ALLOWED_TYPES)
  /\ obj_revoked obj <> Some true /\ obj_x_mitre_deprecated obj <> Some true.
Proof.
  unfold eligible, type_allowed, lifecycle_flagged, truthy.
  rewrite andb_true_iff, negb_true_iff, orb_false_iff. split.
  - intros [Ht [Hr Hd]]. split; [|split].
    + destruct (obj_type obj) as [t|]; [|done].
      exists t. split; [done|]. by apply bool_decide_eq_true in Ht.
    + intros E. rewrite E in Hr. done.
    + intros E. rewrite E in Hd. done.
  - intros [[t [Et Ht]] [Hr Hd]]. rewrite Et. split; [|split].
    + by apply bool_decide_eq_true.
    + destruct (obj_revoked obj) as [[]|]; done.
    + destruct (obj_x_mitre_deprecated obj) as [[]|]; done.
Qed.

(** [C2] Record filter.  The output of [load_mitre_data]'s loop is the input
    filtered, in input order, by the policy: an occurrence of an object is
    kept if and only if its type is one of the six allowed types and neither
    [revoked] nor [x_mitre_deprecated] is set; the output is a subsequence of
    the input. *)
Theorem record_filter_inclusion (objects : list KnowledgeObject) :
  filter_objects objects = List.filter eligible objects
  /\ (forall obj, obj ∈ filter_objects objects <->
        obj ∈ objects
        /\ (exists t, obj_type obj = Some t /\ t ∈ ALLOWED_TYPES)
        /\ obj_revoked obj <> Some true
        /\ obj_x_mitre_deprecated obj <> Some true)
  /\ filter_objects objects `sublist_of` objects.
Proof.
  rewrite filter_objects_filter. split; [done|split].
  - intros obj. rewrite list_elem_of_In, filter_In, <- list_elem_of_In.
    by rewrite eligible_spec.
  - apply list_filter_sublist.
Qed.

(** ** The audit counters *)

Lemma audit_step_classify st obj :
  audit_step st obj =
  match classify obj with
  | SkippedByType =>
      {| relevant_objects := relevant_objects st;
         skipped_types := skipped_types st + 1;
         skipped_revoked := skipped_revoked st |}
  | SkippedByLifecycle =>
      {| relevant_objects := relevant_objects st;
         skipped_types := skipped_types st;
         skipped_revoked := skipped_revoked st + 1 |}
  | Included =>
      {| relevant_objects := relevant_objects st ++ [obj];
         skipped_types := skipped_types st;
         skipped_revoked := skipped_revoked st |}
  end.
Proof.
  unfold audit_step, classify.
  by destruct (type_allowed obj), (lifecycle_flagged obj).
Qed.

Lemma classify_included obj : classify obj = Included <-> eligible obj = true.
Proof.
  unfold classify, eligible.
  by destruct (type_allowed obj), (lifecycle_flagged obj).
Qed.

Lemma class_count_cons c obj objects :
  class_count c (obj :: objects)
  = (if bool_decide (classify obj = c) then 1 else 0) + class_count c objects.
Proof. unfold class_count. cbn [List.filter]. by case_bool_decide. Qed.

Lemma foldl_audit_step objects st :
  let st' := foldl audit_step st objects in
  relevant_objects st' = relevant_objects st ++ List.filter eligible objects
  /\ skipped_types st' = skipped_types st + class_count SkippedByType objects
  /\ skipped_revoked st'
     = skipped_revoked st + class_count SkippedByLifecycle objects.
Proof.
  revert st.
  induction objects as [|obj objects IH]; intros st; cbn [foldl List.filter].
  - unfold class_count; cbn. rewrite app_nil_r. repeat split; lia.
  - destruct (IH (audit_step st obj)) as (Hr & Ht & Hl).
    rewrite Hr, Ht, Hl, audit_step_classify, !class_count_cons.
    pose proof (classify_included obj) as Hinc.
    destruct (classify obj), (eligible obj);
      repeat case_bool_decide; try congruence;
      try (by destruct Hinc as [H1 H2];
           (discriminate (H1 eq_refl) || discriminate (H2 eq_refl)));
      cbn; rewrite <- ?app_assoc; repeat split; try done; lia.
Qed.

Lemma class_count_total objects :
  length objects
  = class_count Included objects + class_count SkippedByType objects
    + class_count SkippedByLifecycle objects.
Proof.
  induction objects as [|obj objects IH]; [done|].
  rewrite !class_count_cons. cbn [length].
  destruct (classify obj); repeat case_bool_decide; try congruence; lia.
Qed.

Lemma class_count_included objects :
  class_count Included objects = length (List.filter eligible objects).
Proof.
  unfold class_count. f_equal. apply filter_ext. intros obj.
  destruct (eligible obj) eqn:E.
  - apply bool_decide_eq_true. by apply classify_included.
  - apply bool_decide_eq_false. rewrite classify_included. congruence.
Qed.

(** [C3] Counting invariant.  After the audit loop the number of objects of
    the corpus is the number of included records plus the number skipped by
    type plus the number skipped by a lifecycle flag; the three counters are
    the sizes of the three classes of [classify], which puts every object in
    one class, and the included records are those the ingestion filter
    keeps. *)
Theorem audit_counting_invariant (all_objects : list KnowledgeObject) :
  let st := audit_loop all_objects in
  length all_objects
  = length (relevant_objects st) + skipped_types st + skipped_revoked st
  /\ length (relevant_objects st) = class_count Included all_objects
  /\ skipped_types st = class_count SkippedByType all_objects
  /\ skipped_revoked st = class_count SkippedByLifecycle all_objects
  /\ relevant_objects st = filter_objects all_objects.
Proof.
  intros st. subst st. unfold audit_loop.
  destruct (foldl_audit_step all_objects
    {| relevant_objects := []; skipped_types := 0; skipped_revoked := 0 |})
    as (Hr & Ht & Hl).
  cbn in Hr, Ht, Hl. rewrite Hr, Ht, Hl.
  pose proof (class_count_total all_objects) as Htot.
  pose proof (class_count_included all_objects) as Hinc.
  rewrite filter_objects_filter. repeat split; try lia.
Qed.

(** ** The domain identifier *)

Lemma extract_mitre_id_find refs :
  extract_mitre_id refs =
  match List.find is_mitre_attack refs with
  | Some ref => default "UNKNOWN" (ref_external_id ref)
  | None => "UNKNOWN"
  end.
Proof.
  induction refs as [|ref refs IH]; [done|].
  cbn. by destruct (is_mitre_attack ref).
Qed.

Lemma extract_mitre_id_first before ref after :
  Forall (fun r => ref_source_name r <> Some "mitre-attack") before ->
  ref_source_name ref = Some "mitre-attack" ->
  extract_mitre_id (before ++ ref :: after)
  = default "UNKNOWN" (ref_external_id ref).
Proof.
  intros Hb Hr. induction Hb as [|r before Hn _ IH]; cbn.
  - unfold is_mitre_attack. by rewrite bool_decide_eq_true_2.
  - unfold is_mitre_attack at 1. by rewrite bool_decide_eq_false_2.
Qed.

(** [C10] Domain-id extraction.  [extract_mitre_id] answers with the
    [external_id] of the first reference, in list order, whose [source_name]
    is "mitre-attack", and with "UNKNOWN" when that reference has no
    [external_id] or when no reference matches; on "UNKNOWN" the loop takes
    the object's native id.  [sample_no_external_id] carries a "mitre-attack"
    reference, even one with an [external_id] further down the list, and is
    keyed by its native id. *)
Theorem domain_id_extraction :
  (forall refs,
     extract_mitre_id refs =
     match List.find is_mitre_attack refs with
     | Some ref => default "UNKNOWN" (ref_external_id ref)
     | None => "UNKNOWN"
     end)
  /\ (forall before ref after,
        Forall (fun r => ref_source_name r <> Some "mitre-attack") before ->
        ref_source_name ref = Some "mitre-attack" ->
        extract_mitre_id (before ++ ref :: after)
        = default "UNKNOWN" (ref_external_id ref))
  /\ (forall obj,
        extract_mitre_id (default [] (obj_external_references obj))
        = "UNKNOWN" ->
        domain_id obj = obj_id obj)
  /\ (exists ref,
        ref ∈ default [] (obj_external_references sample_no_external_id)
        /\ ref_source_name ref = Some "mitre-attack"
        /\ ref_external_id ref = Some "T1055")
  /\ ids (main_loop always_embedded [] [sample_no_external_id])
     = [obj_id sample_no_external_id].
Proof.
  split; [exact extract_mitre_id_find|].
  split; [exact extract_mitre_id_first|].
  split; [|split].
  - intros obj E. unfold domain_id. by rewrite E.
  - exists {| ref_source_name := Some "mitre-attack";
              ref_external_id := Some "T1055"; ref_url := None |}.
    split; [|split; reflexivity].
    cbn. do 2 right. left.
  - vm_compute. reflexivity.
Qed.

Lemma domain_id_extraction_witness :
  extract_mitre_id
    (default [] (obj_external_references sample_no_external_id)) = "UNKNOWN"
  /\ domain_id sample_no_external_id = Some "attack-pattern--0001".
Proof.
  destruct domain_id_extraction as (_ & Hfirst & Hfallback & _).
  assert (E : extract_mitre_id
      (default [] (obj_external_references sample_no_external_id))
      = "UNKNOWN").
  { refine (Hfirst
      [ {| ref_source_name := Some "capec";
           ref_external_id := Some "CAPEC-640"; ref_url := None |} ]
      {| ref_source_name := Some "mitre-attack"; ref_external_id := None;
         ref_url := Some "https://attack.mitre.org/techniques/T1055" |}
      [ {| ref_source_name := Some "mitre-attack";
           ref_external_id := Some "T1055"; ref_url := None |} ] _ _).
    - constructor; [cbn; discriminate|constructor].
    - reflexivity. }
  split; [exact E|]. exact (Hfallback sample_no_external_id E).
Defined.

(** ** The document synthesizer *)

Lemma normalize_list_nonempty field :
  nonempty (normalize_list field) = list_field_has_text field.
Proof.
  destruct field as [[|x [|y l]]|]; cbn [normalize_list String.concat].
  - done.
  - by destruct x.
  - rewrite nonempty_append_comma. by destruct x.
  - done.
Qed.

(** [C6] Document synthesis shape, as the code has it.  The text is the
    header "<domain_id>: <name> (<type>)", an underline of "=" as long as
    the header, the description line and then the optional lines, joined by
    blank lines.  The detection line is written if and only if the detection
    text is non-empty; the platforms and the required-permissions line are
    written if and only if the comma-joined list is non-empty, that is when
    the list is neither absent, nor empty, nor the one-item list holding the
    empty string. *)
Theorem document_shape (obj : KnowledgeObject) (mitre_id : option string) :
  let header :=
    py_str mitre_id +:+ ": " +:+ default "Unknown" (obj_name obj)
      +:+ " (" +:+ py_str (obj_type obj) +:+ ")" in
  let underline := str_repeat "=" (String.length header) in
  generate_document_text obj mitre_id
  = String.concat (NL +:+ NL)
      ([header; underline;
        "Description: " +:+ default "" (obj_description obj)]
       ++ optional_line (list_field_has_text (obj_x_mitre_platforms obj))
            ("Platforms: " +:+ normalize_list (obj_x_mitre_platforms obj))
       ++ optional_line
            (list_field_has_text (obj_x_mitre_permissions_required obj))
            ("Permissions Required: "
             +:+ normalize_list (obj_x_mitre_permissions_required obj))
       ++ optional_line (spec_text_field_nonempty (obj_x_mitre_detection obj))
            ("Detection: " +:+ default "" (obj_x_mitre_detection obj)))
  /\ String.length underline = String.length header.
Proof.
  intros header underline. split; [|apply str_repeat_length].
  unfold generate_document_text, document_parts.
  fold (document_header obj mitre_id).
  change (document_header obj mitre_id) with header.
  fold underline. rewrite !normalize_list_nonempty.
  unfold spec_text_field_nonempty, optional_line.
  destruct (list_field_has_text (obj_x_mitre_platforms obj)),
    (list_field_has_text (obj_x_mitre_permissions_required obj)),
    (nonempty (default "" (obj_x_mitre_detection obj))); reflexivity.
Qed.

(** The platform list of [sample_blank_platform] is not empty, yet no
    platforms line is written: the text differs from the one the
    specification describes. *)
Lemma blank_platform_line_missing :
  spec_list_field_nonempty (obj_x_mitre_platforms sample_blank_platform) = true
  /\ generate_document_text sample_blank_platform (Some "S0002")
     <> spec_document_text sample_blank_platform (Some "S0002").
Proof. split; [reflexivity|]. vm_compute. discriminate. Qed.

(** ** The batch indexer *)

Lemma py_range_nil start stop step :
  0 < step -> stop <= start -> py_range start stop step = [].
Proof.
  intros Hs Hle. unfold py_range.
  replace (stop - start + step - 1) with (step - 1) by lia.
  rewrite Nat.div_small by lia. done.
Qed.

Lemma py_range_cons start stop step :
  0 < step -> start < stop ->
  py_range start stop step = start :: py_range (start + step) stop step.
Proof.
  intros Hs Hlt. unfold py_range.
  assert (E : (stop - start + step - 1) / step
              = S ((stop - (start + step) + step - 1) / step)).
  { destruct (decide (stop - start < step)) as [Hsmall|Hbig].
    - replace (stop - (start + step) + step - 1) with (step - 1) by lia.
      rewrite (Nat.div_small (step - 1)) by lia.
      symmetry. apply (Nat.div_unique _ _ _ (stop - start - 1)); lia.
    - replace (stop - start + step - 1)
        with ((stop - (start + step) + step - 1) + 1 * step) by lia.
      rewrite Nat.div_add by lia. lia. }
  rewrite E. cbn [seq map]. f_equal; [lia|].
  rewrite <- seq_shift, map_map. apply map_ext. intros k. lia.
Qed.

Lemma slice_length {A} i stop (l : list A) :
  length (slice i stop l) = Nat.min (stop - i) (length l - i).
Proof. unfold slice. by rewrite length_take, length_drop. Qed.

Lemma py_range_chunks {A} (step : nat) (l : list A) :
  0 < step ->
  forall k start, length l - start <= k ->
    concat (map (fun i => slice i (Nat.min (i + step) (length l)) l)
              (py_range start (length l) step))
    = drop start l.
Proof.
  intros Hs. induction k as [|k IH]; intros start Hk.
  - rewrite py_range_nil by lia. rewrite drop_ge by lia. done.
  - destruct (decide (start < length l)) as [Hlt|Hge].
    + rewrite py_range_cons by lia. cbn [map concat].
      rewrite IH by lia. unfold slice.
      destruct (decide (start + step <= length l)) as [Hin|Hout].
      * rewrite Nat.min_l by lia.
        replace (start + step - start) with step by lia.
        rewrite <- drop_drop. apply take_drop.
      * rewrite Nat.min_r by lia.
        rewrite (drop_ge l (start + step)) by lia.
        rewrite app_nil_r. apply take_ge. rewrite length_drop. lia.
    + rewrite py_range_nil by lia. rewrite drop_ge by lia. done.
Qed.

Lemma batch_slices_concat {A} (l : list A) (len : nat) :
  len = length l ->
  concat (map (fun b : nat * nat => slice b.1 b.2 l) (batch_ranges len)) = l.
Proof.
  intros ->. unfold batch_ranges. rewrite map_map. cbn [batch_bounds fst snd].
  rewrite (py_range_chunks batch_size l) with (k := length l) (start := 0).
  - done.
  - unfold batch_size; lia.
  - lia.
Qed.

Lemma slice_seq i stop n :
  stop <= n -> slice i stop (seq 0 n) = seq i (stop - i).
Proof.
  intros Hle. unfold slice. rewrite drop_seq, take_seq. f_equal. lia.
Qed.

Lemma batch_ranges_bounds len b :
  In b (batch_ranges len) ->
  b.1 < b.2 /\ b.2 <= len /\ b.2 - b.1 <= batch_size.
Proof.
  unfold batch_ranges, py_range. rewrite in_map_iff.
  intros (i & <- & Hi). apply in_map_iff in Hi as (k & <- & Hk).
  apply in_seq in Hk.
  cbn [batch_bounds fst snd]. unfold batch_size in *.
  assert (k * 100 < len).
  { assert (H1 : k < (len - 0 + 100 - 1) / 100) by lia.
    pose proof (Nat.div_mod_eq (len - 0 + 100 - 1) 100) as Hd.
    pose proof (Nat.mod_upper_bound (len - 0 + 100 - 1) 100). nia. }
  lia.
Qed.

Lemma covered_indices_batch_ranges len :
  covered_indices (batch_ranges len) = seq 0 len.
Proof.
  transitivity (concat (map (fun b : nat * nat => slice b.1 b.2 (seq 0 len))
                          (batch_ranges len)));
    [|apply batch_slices_concat; by rewrite length_seq].
  unfold covered_indices. f_equal. apply map_ext_in.
  intros b Hb. apply batch_ranges_bounds in Hb.
  rewrite slice_seq; [done|lia].
Qed.

Lemma assign_ids_length records : forall ids0,
  length (assign_ids ids0 records) = length ids0 + length records.
Proof.
  induction records as [|r records IH]; intros ids0; cbn; [lia|].
  unfold assign_ids in IH. rewrite IH, length_app. cbn. lia.
Qed.

Section LoopFacts.

Context {Vec : Type}.
Variable ollama : nat -> string -> reply Vec.

(** What the embedding loop has built after a list of objects, from any
    state. *)
Lemma foldl_main_step total objects (st : @loop_state Vec) :
  let st' := foldl (main_step ollama total) st objects in
  let emb := embedded_from ollama (ollama_calls st) objects in
  documents st' = documents st ++ map (fun p => document_of p.1) emb
  /\ metadatas st'
     = metadatas st ++ map (fun p => build_metadata p.1 (domain_id p.1)) emb
  /\ ids st' = assign_ids (ids st) (map fst emb)
  /\ embeddings st' = embeddings st ++ map snd emb
  /\ count st' = count st + length objects
  /\ ollama_calls st' = ollama_calls st + length objects
  /\ List.filter is_skipping (printed st')
     = List.filter is_skipping (printed st)
       ++ map (fun obj => PrSkipping (domain_id obj))
            (failed_from ollama (ollama_calls st) objects).
Proof.
  revert st. induction objects as [|obj objects IH]; intros st.
  - cbn. rewrite !app_nil_r. repeat split; try done; lia.
  - cbn [foldl]. destruct (IH (main_step ollama total st obj))
      as (Hd & Hm & Hi & He & Hc & Ho & Hp).
    cbn zeta. rewrite Hd, Hm, Hi, He, Hc, Ho, Hp. clear.
    unfold main_step, get_embedding. cbn [embedded_from failed_from].
    fold (document_of obj).
    destruct (ollama (ollama_calls st) (document_of obj)) as [v|e];
      cbn [documents metadatas ids embeddings count ollama_calls printed
           map fst snd length assign_ids foldl].
    + rewrite <- !app_assoc. cbn [app].
      rewrite !List.filter_app.
      destruct (Nat.eqb (S (count st) mod 10) 0); cbn; rewrite ?app_nil_r;
        repeat split; try done; lia.
    + rewrite !List.filter_app.
      destruct (Nat.eqb (S (count st) mod 10) 0); cbn; rewrite ?app_nil_r;
        rewrite <- ?app_assoc; repeat split; try done; lia.
Qed.

(** The four lists of the loop grow together. *)
Lemma main_loop_lengths printed0 objects :
  let st := main_loop ollama printed0 objects in
  length (ids st) = length (documents st)
  /\ length (embeddings st) = length (documents st)
  /\ length (metadatas st) = length (documents st).
Proof.
  destruct (foldl_main_step (length objects) objects (loop_init printed0))
    as (Hd & Hm & Hi & He & _).
  unfold main_loop. cbn zeta. rewrite Hd, Hm, Hi, He. cbn.
  by rewrite assign_ids_length, !length_map.
Qed.

Lemma upsert_loop_all_ok (upsert : nat -> @upsert_call Vec -> reply unit) st :
  (forall n c, exists u, upsert n c = Reply u) ->
  forall ranges k,
    upsert_loop upsert st k ranges
    = (map (fun b : nat * nat => PrUpsertingBatch b.1 b.2) ranges,
       map (batch_call st) ranges, Returned).
Proof.
  intros Hok. induction ranges as [|b ranges IH]; intros k; [done|].
  cbn [upsert_loop map]. destruct (Hok k (batch_call st b)) as [u ->].
  by rewrite IH.
Qed.

(** The embedding loop announces no batch. *)
Lemma foldl_main_step_no_batch_line total objects : forall st : @loop_state Vec,
  List.filter is_batch_line
    (printed (foldl (main_step ollama total) st objects))
  = List.filter is_batch_line (printed st).
Proof.
  induction objects as [|obj objects IH]; intros st; [done|].
  cbn [foldl]. rewrite IH. unfold main_step, get_embedding.
  destruct (ollama (ollama_calls st) _) as [v|e]; cbn [printed];
    rewrite !List.filter_app;
    destruct (Nat.eqb (S (count st) mod 10) 0); cbn;
    by rewrite ?app_nil_r.
Qed.

Lemma main_loop_no_batch_line printed0 objects :
  List.filter is_batch_line printed0 = [] ->
  List.filter is_batch_line (printed (main_loop ollama printed0 objects)) = [].
Proof.
  intros H0. unfold main_loop. by rewrite foldl_main_step_no_batch_line.
Qed.

End LoopFacts.

(** [C5] Batch partitioning.  With 250 records the loop covers the ranges
    [0,100), [100,200), [200,250) in three upsert calls of 100, 100 and 50
    records.  For any number of records the ranges cover every index once,
    in increasing order, and the chunks of each of the four lists of a run,
    put end to end, are the list itself.  A run in which the store answers
    every call issues exactly these calls, in this order, and returns: with
    250 records they are the three calls on the slices [0:100], [100:200]
    and [200:250] of the four lists. *)
Theorem batch_partition {Vec : Type} :
  batch_ranges 250 = [(0, 100); (100, 200); (200, 250)]
  /\ (forall st : @loop_state Vec,
        length (documents st) = 250 ->
        map (fun c => length (up_documents c)) (batch_calls st)
        = [100; 100; 50])
  /\ (forall len, covered_indices (batch_ranges len) = seq 0 len)
  /\ (forall (ollama : nat -> string -> reply Vec) printed0 objects,
        let st := main_loop ollama printed0 objects in
        concat (map up_documents (batch_calls st)) = documents st
        /\ concat (map up_embeddings (batch_calls st)) = embeddings st
        /\ concat (map up_metadatas (batch_calls st)) = metadatas st
        /\ concat (map up_ids (batch_calls st)) = ids st)
  /\ (forall (upsert : nat -> @upsert_call Vec -> reply unit) st,
        (forall n c, exists u, upsert n c = Reply u) ->
        upsert_loop upsert st 0 (batch_ranges (length (documents st)))
        = (map (fun b : nat * nat => PrUpsertingBatch b.1 b.2)
             (batch_ranges (length (documents st))),
           batch_calls st, Returned))
  /\ (forall (env : @ingest_env Vec) data,
        let objects := filter_objects (default [] (kb_objects data)) in
        let st :=
          main_loop (env_ollama env)
            [PrLoading; PrFound (length objects); PrProcessingObjects]
            objects in
        let r := process_mitre_main env in
        env_file env = Some data ->
        (exists u, env_client env = Reply u) ->
        (exists u, env_collection env = Reply u) ->
        (forall n c, exists u, env_upsert env n c = Reply u) ->
        run_end r = Returned
        /\ run_upserts r = batch_calls st
        /\ concat (map up_documents (run_upserts r)) = documents st
        /\ concat (map up_embeddings (run_upserts r)) = embeddings st
        /\ concat (map up_metadatas (run_upserts r)) = metadatas st
        /\ concat (map up_ids (run_upserts r)) = ids st
        /\ (length (documents st) = 250 ->
            run_upserts r
            = [ {| up_documents := slice 0 100 (documents st);
                   up_embeddings := slice 0 100 (embeddings st);
                   up_metadatas := slice 0 100 (metadatas st);
                   up_ids := slice 0 100 (ids st) |};
                {| up_documents := slice 100 200 (documents st);
                   up_embeddings := slice 100 200 (embeddings st);
                   up_metadatas := slice 100 200 (metadatas st);
                   up_ids := slice 100 200 (ids st) |};
                {| up_documents := slice 200 250 (documents st);
                   up_embeddings := slice 200 250 (embeddings st);
                   up_metadatas := slice 200 250 (metadatas st);
                   up_ids := slice 200 250 (ids st) |} ]
            /\ map (fun c => length (up_documents c)) (run_upserts r)
               = [100; 100; 50]
            /\ List.filter is_batch_line (run_printed r)
               = [PrUpsertingBatch 0 100; PrUpsertingBatch 100 200;
                  PrUpsertingBatch 200 250])).
Proof.
  assert (Hsizes : forall st : @loop_state Vec,
            length (documents st) = 250 ->
            map (fun c => length (up_documents c)) (batch_calls st)
            = [100; 100; 50]).
  { intros st Hlen. unfold batch_calls. rewrite Hlen.
    change (batch_ranges 250) with [(0, 100); (100, 200); (200, 250)].
    cbn [map batch_call up_documents fst snd].
    rewrite !slice_length, Hlen. reflexivity. }
  assert (Hconcat :
    forall (ollama : nat -> string -> reply Vec) printed0 objects,
      let st := main_loop ollama printed0 objects in
      concat (map up_documents (batch_calls st)) = documents st
      /\ concat (map up_embeddings (batch_calls st)) = embeddings st
      /\ concat (map up_metadatas (batch_calls st)) = metadatas st
      /\ concat (map up_ids (batch_calls st)) = ids st).
  { intros ollama printed0 objects st.
    destruct (main_loop_lengths ollama printed0 objects) as (Hi & He & Hm).
    fold st in Hi, He, Hm.
    unfold batch_calls. rewrite !map_map.
    cbn [batch_call up_documents up_embeddings up_metadatas up_ids].
    repeat split; by apply batch_slices_concat. }
  split; [reflexivity|]. split; [exact Hsizes|].
  split; [exact covered_indices_batch_ranges|]. split; [exact Hconcat|].
  split.
  - intros upsert st Hok. by rewrite (upsert_loop_all_ok upsert st Hok).
  - intros env data objects st r Hfile [u1 Hcl] [u2 Hco] Hok.
    assert (Hr : r = {| run_printed :=
                   (printed st ++ [PrGenerated (length (embeddings st));
                                   PrInitializing])
                   ++ [PrUpserting]
                   ++ map (fun b : nat * nat => PrUpsertingBatch b.1 b.2)
                        (batch_ranges (length (documents st)))
                   ++ [PrDone];
                 run_upserts := batch_calls st;
                 run_end := Returned |}).
    { subst r. unfold process_mitre_main, load_mitre_data. rewrite Hfile.
      fold objects. fold st. rewrite Hcl, Hco.
      rewrite (upsert_loop_all_ok (env_upsert env) st Hok). done. }
    destruct (Hconcat (env_ollama env)
                [PrLoading; PrFound (length objects); PrProcessingObjects]
                objects) as (Hd & He & Hm & Hi).
    fold st in Hd, He, Hm, Hi.
    rewrite Hr. cbn [run_end run_upserts run_printed].
    split; [done|]. split; [done|]. split; [done|]. split; [done|].
    split; [done|]. split; [done|].
    intros Hlen. split; [|split].
    + unfold batch_calls. rewrite Hlen.
      change (batch_ranges 250) with [(0, 100); (100, 200); (200, 250)].
      reflexivity.
    + by apply Hsizes.
    + rewrite Hlen.
      change (batch_ranges 250) with [(0, 100); (100, 200); (200, 250)].
      pose proof (main_loop_no_batch_line (env_ollama env)
                    [PrLoading; PrFound (length objects); PrProcessingObjects]
                    objects eq_refl) as Hquiet.
      fold st in Hquiet. rewrite !List.filter_app, Hquiet. reflexivity.
Qed.

Lemma batch_partition_witness :
  let r := process_mitre_main sample_env_250 in
  run_end r = Returned
  /\ map (fun c => length (up_documents c)) (run_upserts r) = [100; 100; 50]
  /\ List.filter is_batch_line (run_printed r)
     = [PrUpsertingBatch 0 100; PrUpsertingBatch 100 200;
        PrUpsertingBatch 200 250].
Proof.
  destruct (@batch_partition (list Z)) as (_ & _ & _ & _ & _ & Hrun).
  destruct (Hrun sample_env_250 {| kb_objects := Some sample_corpus_250 |})
    as (Hend & _ & _ & _ & _ & _ & H250).
  - reflexivity.
  - by exists ().
  - by exists ().
  - intros n c. by exists ().
  - destruct H250 as (_ & Hsizes & Hlines); [vm_compute; reflexivity|].
    cbn zeta. split; [exact Hend|]. split; [exact Hsizes|exact Hlines].
Defined.

(** ** Embedding failures *)

Section SkipFacts.

Context {Vec : Type}.
Variable ollama : nat -> string -> reply Vec.

Lemma all_embedded objects : forall calls,
  (forall i o, objects !! i = Some o ->
     exists v, ollama (calls + i) (document_of o) = Reply v) ->
  map fst (embedded_from ollama calls objects) = objects
  /\ failed_from ollama calls objects = [].
Proof.
  induction objects as [|x objects IH]; intros calls Hall; [done|].
  cbn [embedded_from failed_from].
  destruct (Hall 0 x eq_refl) as [v Hv]. rewrite Nat.add_0_r in Hv.
  rewrite Hv. destruct (IH (S calls)) as [E1 E2].
  - intros i o Hi. destruct (Hall (S i) o Hi) as [w Hw].
    exists w. by rewrite <- Hw, Nat.add_succ_r.
  - cbn. by rewrite E1, E2.
Qed.

Lemma single_failure objects : forall calls k obj e,
  objects !! k = Some obj ->
  ollama (calls + k) (document_of obj) = Failure e ->
  (forall i o, i <> k -> objects !! i = Some o ->
     exists v, ollama (calls + i) (document_of o) = Reply v) ->
  map fst (embedded_from ollama calls objects) = delete k objects
  /\ failed_from ollama calls objects = [obj].
Proof.
  induction objects as [|o objects IH]; intros calls k obj e Hk He Hothers;
    [done|].
  cbn [embedded_from failed_from]. destruct k as [|k].
  - injection Hk as ->. rewrite Nat.add_0_r in He. rewrite He.
    cbn [delete list_delete].
    destruct (all_embedded objects (S calls)) as [E1 E2]; [|by rewrite E1, E2].
    intros i o' Hi. destruct (Hothers (S i) o') as [w Hw]; [lia|done|].
    exists w. by rewrite <- Hw, Nat.add_succ_r.
  - destruct (Hothers 0 o) as [v Hv]; [lia|done|].
    rewrite Nat.add_0_r in Hv. rewrite Hv.
    destruct (IH (S calls) k obj e) as [E1 E2].
    + done.
    + by rewrite <- He, Nat.add_succ_r.
    + intros i o' Hik Hi. destruct (Hothers (S i) o') as [w Hw]; [lia|done|].
      exists w. by rewrite <- Hw, Nat.add_succ_r.
    + cbn. by rewrite E1, E2.
Qed.

End SkipFacts.

Lemma no_skipping_in_batches (ranges : list (nat * nat)) :
  List.filter is_skipping
    (map (fun b : nat * nat => PrUpsertingBatch b.1 b.2) ranges) = [].
Proof. induction ranges; done. Qed.

(** [C4] Embedding-failure skip.  Let the run find the knowledge base and the
    store, and let the embedding request fail for the record at position [k]
    of the eligible records and for no other.  Then the loop hands over the
    documents and metadata of the other records, in order, with as many keys
    and vectors, one fewer than the eligible records; Ollama was asked once
    per record; the upsert calls write these entries and nothing else; the
    output holds one skip line, with the domain id of the failed record. *)
Theorem embedding_failure_skip {Vec : Type} (env : @ingest_env Vec)
    (data : KnowledgeBase) (k : nat) (obj : KnowledgeObject) (e : string) :
  let objects := filter_objects (default [] (kb_objects data)) in
  let st :=
    main_loop (env_ollama env)
      [PrLoading; PrFound (length objects); PrProcessingObjects] objects in
  let r := process_mitre_main env in
  env_file env = Some data ->
  objects !! k = Some obj ->
  env_ollama env k (document_of obj) = Failure e ->
  (forall i o, i <> k -> objects !! i = Some o ->
     exists v, env_ollama env i (document_of o) = Reply v) ->
  (exists u, env_client env = Reply u) ->
  (exists u, env_collection env = Reply u) ->
  (forall n c, exists u, env_upsert env n c = Reply u) ->
  documents st = map document_of (delete k objects)
  /\ metadatas st
     = map (fun o => build_metadata o (domain_id o)) (delete k objects)
  /\ length (ids st) = length objects - 1
  /\ length (embeddings st) = length objects - 1
  /\ ollama_calls st = length objects
  /\ List.filter is_skipping (printed st) = [PrSkipping (domain_id obj)]
  /\ run_end r = Returned
  /\ run_upserts r = batch_calls st
  /\ concat (map up_documents (run_upserts r)) = documents st
  /\ concat (map up_ids (run_upserts r)) = ids st
  /\ concat (map up_embeddings (run_upserts r)) = embeddings st
  /\ concat (map up_metadatas (run_upserts r)) = metadatas st
  /\ List.filter is_skipping (run_printed r) = [PrSkipping (domain_id obj)].
Proof.
  intros objects st r Hfile Hk He Hothers [u1 Hcl] [u2 Hco] Hup.
  destruct (foldl_main_step (env_ollama env) (length objects) objects
              (loop_init [PrLoading; PrFound (length objects);
                          PrProcessingObjects]))
    as (Hd & Hm & Hi & Hv & _ & Hc & Hp).
  fold (main_loop (env_ollama env)
          [PrLoading; PrFound (length objects); PrProcessingObjects] objects)
    in Hd, Hm, Hi, Hv, Hc, Hp.
  fold st in Hd, Hm, Hi, Hv, Hc, Hp. cbn in Hd, Hm, Hi, Hv, Hc, Hp.
  destruct (single_failure (env_ollama env) objects 0 k obj e Hk He Hothers)
    as [Hemb Hfail].
  rewrite Hfail in Hp. cbn in Hp.
  assert (Hlen : length (delete k objects) = length objects - 1).
  { rewrite length_delete; [done|by eexists]. }
  assert (Hd' : documents st = map document_of (delete k objects)).
  { rewrite Hd, <- Hemb, map_map. done. }
  assert (Hm' : metadatas st
     = map (fun o => build_metadata o (domain_id o)) (delete k objects)).
  { rewrite Hm, <- Hemb, map_map. done. }
  assert (Hi' : length (ids st) = length objects - 1).
  { rewrite Hi, assign_ids_length, Hemb. cbn. lia. }
  assert (Hv' : length (embeddings st) = length objects - 1).
  { rewrite Hv, length_map, <- Hlen, <- Hemb, length_map. done. }
  assert (Hr : r = {| run_printed :=
                 (printed st ++ [PrGenerated (length (embeddings st));
                                 PrInitializing])
                 ++ [PrUpserting]
                 ++ map (fun b : nat * nat => PrUpsertingBatch b.1 b.2)
                      (batch_ranges (length (documents st)))
                 ++ [PrDone];
               run_upserts := batch_calls st;
               run_end := Returned |}).
  { subst r. unfold process_mitre_main, load_mitre_data. rewrite Hfile.
    fold objects. fold st. rewrite Hcl, Hco.
    rewrite (upsert_loop_all_ok (env_upsert env) st Hup). done. }
  assert (Hdl : length (documents st) = length objects - 1).
  { by rewrite Hd', length_map. }
  repeat split; try done; try (by rewrite Hr).
  - rewrite Hr. cbn [run_upserts]. unfold batch_calls. rewrite map_map.
    cbn [batch_call up_documents]. by apply batch_slices_concat.
  - rewrite Hr. cbn [run_upserts]. unfold batch_calls. rewrite map_map.
    cbn [batch_call up_ids]. apply batch_slices_concat. lia.
  - rewrite Hr. cbn [run_upserts]. unfold batch_calls. rewrite map_map.
    cbn [batch_call up_embeddings]. apply batch_slices_concat. lia.
  - rewrite Hr. cbn [run_upserts]. unfold batch_calls. rewrite map_map.
    cbn [batch_call up_metadatas]. apply batch_slices_concat.
    rewrite Hm', length_map. lia.
  - rewrite Hr. cbn [run_printed]. rewrite !List.filter_app, Hp. cbn.
    by rewrite app_nil_r, no_skipping_in_batches.
Qed.

Lemma embedding_failure_skip_witness :
  let r := process_mitre_main sample_env in
  run_end r = Returned
  /\ length (concat (map up_documents (run_upserts r))) = 2
  /\ List.filter is_skipping (run_printed r) = [PrSkipping (Some "T1055")].
Proof.
  destruct (embedding_failure_skip sample_env
              {| kb_objects := Some sample_shared |} 1
              (technique "attack-pattern--2" "T1055") "connection refused")
    as (Hd & _ & _ & _ & _ & _ & Hend & _ & Hup & _ & _ & _ & Hskip).
  - reflexivity.
  - reflexivity.
  - reflexivity.
  - intros i o Hne Hi. destruct i as [|[|i]]; [|done|]; by exists [0%Z].
  - by exists ().
  - by exists ().
  - intros n c. by exists ().
  - cbn zeta. split; [exact Hend|]. split; [|exact Hskip].
    rewrite Hup, Hd. reflexivity.
Defined.

(** ** The identity resolver *)

Lemma assign_ids_snoc ids0 records obj :
  assign_ids ids0 (records ++ [obj])
  = assign_ids ids0 records
    ++ [resolve_id (assign_ids ids0 records) (domain_id obj) (obj_id obj)].
Proof. unfold assign_ids. by rewrite foldl_app. Qed.

Lemma assign_ids_app ids0 l1 l2 :
  assign_ids ids0 (l1 ++ l2) = assign_ids (assign_ids ids0 l1) l2.
Proof. unfold assign_ids. by rewrite foldl_app. Qed.

Lemma assign_ids_extends records : forall ids0,
  exists more, assign_ids ids0 records = ids0 ++ more.
Proof.
  induction records as [|r records IH]; intros ids0.
  - exists []. by rewrite app_nil_r.
  - cbn. destruct (IH (ids0 ++ [resolve_id ids0 (domain_id r) (obj_id r)]))
      as [more E].
    eexists. unfold assign_ids in E. rewrite E, <- app_assoc. done.
Qed.

(** Once a record is resolved its domain id is among the keys. *)
Lemma domain_id_assigned records obj :
  obj ∈ records -> domain_id obj ∈ assign_ids [] records.
Proof.
  induction records as [|r records IH] using rev_ind;
    [by intros ?%elem_of_nil|].
  rewrite assign_ids_snoc, elem_of_app, elem_of_app. intros [Hin|Hin].
  - left. by apply IH.
  - apply list_elem_of_singleton in Hin as ->. unfold resolve_id.
    case_bool_decide; [by left|right; by apply list_elem_of_singleton].
Qed.

(** Every key is the domain id or the composite key of a record. *)
Lemma assigned_origin records key :
  key ∈ assign_ids [] records ->
  exists obj, obj ∈ records /\ (key = domain_id obj \/ key = composite_key obj).
Proof.
  induction records as [|r records IH] using rev_ind;
    [by intros ?%elem_of_nil|].
  rewrite assign_ids_snoc, elem_of_app. intros [Hin|Hin].
  - destruct (IH Hin) as (obj & Ho & Hk). exists obj. split; [|done].
    apply elem_of_app. by left.
  - apply list_elem_of_singleton in Hin. exists r. split.
    + apply elem_of_app. right. by apply list_elem_of_singleton.
    + subst key. unfold resolve_id, composite_key. case_bool_decide; auto.
Qed.

Lemma plain_not_composite obj obj' :
  no_underscore (py_str (domain_id obj)) = true ->
  domain_id obj <> composite_key obj'.
Proof.
  intros Hp E. rewrite E in Hp. unfold composite_key in Hp. cbn in Hp.
  by rewrite composite_has_underscore in Hp.
Qed.

Lemma resolve_id_seen records obj :
  domain_id obj ∈ map domain_id records ->
  resolve_id (assign_ids [] records) (domain_id obj) (obj_id obj)
  = composite_key obj.
Proof.
  intros Hin. unfold resolve_id. rewrite bool_decide_eq_true_2; [done|].
  apply list_elem_of_In, in_map_iff in Hin as (o & <- & Ho).
  apply domain_id_assigned. by apply list_elem_of_In.
Qed.

Lemma resolve_id_fresh records obj :
  plain_ids (records ++ [obj]) ->
  domain_id obj ∉ map domain_id records ->
  resolve_id (assign_ids [] records) (domain_id obj) (obj_id obj)
  = domain_id obj.
Proof.
  intros Hplain Hfresh. unfold resolve_id.
  apply Forall_app in Hplain as [_ Hobj].
  pose proof (proj1 (Forall_singleton _ _) Hobj) as Hd. cbn beta in Hd.
  rewrite bool_decide_eq_false_2; [done|].
  intros Hin. apply Hfresh.
  apply assigned_origin in Hin as (o & Ho & [E|E]).
  - rewrite E. apply list_elem_of_In, in_map, list_elem_of_In. done.
  - destruct (plain_not_composite obj o Hd E).
Qed.

Lemma assign_ids_NoDup records :
  plain_ids records -> NoDup (native_ids records) ->
  NoDup (assign_ids [] records).
Proof.
  induction records as [|r records IH] using rev_ind; intros Hplain Hnat.
  - constructor.
  - rewrite assign_ids_snoc. unfold native_ids in Hnat.
    rewrite map_app in Hnat. cbn in Hnat.
    apply NoDup_app in Hnat as (Hnat & Hfresh & _).
    pose proof Hplain as Hplain'.
    apply Forall_app in Hplain' as [Hrecs Hr].
    pose proof (proj1 (Forall_singleton _ _) Hr) as Hrd. cbn beta in Hrd.
    apply NoDup_app. split; [by apply IH|]. split; [|apply NoDup_singleton].
    intros key Hkey Hkey'. apply list_elem_of_singleton in Hkey'.
    unfold resolve_id in Hkey'. case_bool_decide as Hin.
    + apply assigned_origin in Hkey as (o & Ho & [E|E]).
      * rewrite Forall_forall in Hrecs. pose proof (Hrecs o Ho) as Hod.
        apply (plain_not_composite o r Hod). by rewrite <- E, Hkey'.
      * rewrite E in Hkey'. unfold composite_key in Hkey'.
        injection Hkey' as Hkey'.
        rewrite Forall_forall in Hrecs. pose proof (Hrecs o Ho) as Hod.
        apply composite_inj in Hkey' as [_ Hn]; [|done..].
        apply (Hfresh (py_str (obj_id r))).
        -- rewrite <- Hn. apply list_elem_of_In.
           apply (in_map (fun obj => py_str (obj_id obj))).
           by apply list_elem_of_In.
        -- by apply list_elem_of_singleton.
    + subst key. done.
Qed.

Lemma assign_ids_lookup records i obj :
  records !! i = Some obj ->
  assign_ids [] records !! i
  = Some (resolve_id (assign_ids [] (take i records))
            (domain_id obj) (obj_id obj)).
Proof.
  intros Hi. pose proof (take_drop_middle records i obj Hi) as E.
  rewrite <- E at 1.
  rewrite assign_ids_app. cbn [assign_ids foldl].
  fold (assign_ids (assign_ids [] (take i records)
      ++ [resolve_id (assign_ids [] (take i records))
            (domain_id obj) (obj_id obj)])
      (drop (S i) records)).
  destruct (assign_ids_extends (drop (S i) records)
    (assign_ids [] (take i records)
      ++ [resolve_id (assign_ids [] (take i records))
            (domain_id obj) (obj_id obj)]))
    as [more ->].
  rewrite <- app_assoc. rewrite lookup_app_r.
  - rewrite assign_ids_length, length_take. cbn [length].
    apply lookup_lt_Some in Hi.
    replace (i - (0 + i `min` length records)) with 0 by lia. done.
  - rewrite assign_ids_length, length_take. cbn. lia.
Qed.

Lemma plain_ids_prefix records i obj :
  plain_ids records -> records !! i = Some obj ->
  plain_ids (take i records ++ [obj]).
Proof.
  unfold plain_ids. rewrite !Forall_forall. intros Hplain Hobj o Ho.
  apply Hplain. apply elem_of_app in Ho as [Ho|Ho].
  - by apply (subseteq_take i records).
  - apply list_elem_of_singleton in Ho as ->.
    by apply list_elem_of_lookup_2 in Hobj.
Qed.

(** [C1] Identity resolution, as the code has it.  Take the records that
    reach the resolver in a run, in order.  A record whose domain id was
    already met gets the composite key "<domain id>_<native id>".  When no
    domain id of the run holds an underscore, the first record of a domain
    id gets the bare domain id; when moreover the native ids are pairwise
    distinct, the keys of the run are pairwise distinct.  Native ids may
    hold underscores. *)
Theorem identity_resolution {Vec : Type} (ollama : nat -> string -> reply Vec)
    (printed0 : list ingest_line) (objects : list KnowledgeObject) :
  let st := main_loop ollama printed0 objects in
  let records := embedded_records ollama objects in
  length (ids st) = length records
  /\ (forall i obj, records !! i = Some obj ->
        domain_id obj ∈ map domain_id (take i records) ->
        ids st !! i = Some (composite_key obj))
  /\ (plain_ids records ->
      forall i obj, records !! i = Some obj ->
        domain_id obj ∉ map domain_id (take i records) ->
        ids st !! i = Some (domain_id obj))
  /\ (plain_ids records -> NoDup (native_ids records) -> NoDup (ids st)).
Proof.
  intros st records.
  destruct (foldl_main_step ollama (length objects) objects
              (loop_init printed0)) as (_ & _ & Hi & _).
  fold (main_loop ollama printed0 objects) in Hi. fold st in Hi.
  cbn in Hi. fold (embedded_records ollama objects) in Hi. fold records in Hi.
  rewrite Hi. split; [|split; [|split]].
  - by rewrite assign_ids_length.
  - intros i obj Hobj Hseen. rewrite (assign_ids_lookup records i obj Hobj).
    f_equal. by apply resolve_id_seen.
  - intros Hplain i obj Hobj Hfresh.
    rewrite (assign_ids_lookup records i obj Hobj).
    f_equal. apply resolve_id_fresh; [|done].
    by apply plain_ids_prefix.
  - apply assign_ids_NoDup.
Qed.

(** The native ids of [sample_colliding] are pairwise distinct, and two of
    its records get the same key. *)
Lemma sample_colliding_ids :
  NoDup (native_ids (embedded_records always_embedded sample_colliding))
  /\ ~ NoDup (ids (main_loop always_embedded [] sample_colliding)).
Proof. split; apply (bool_decide_unpack _); vm_compute; exact I. Qed.

(** In [sample_shadowed] the third record is the first of its domain id and
    still gets a composite key: its domain id holds an underscore. *)
Lemma first_of_domain_id_shadowed :
  map domain_id (embedded_records always_embedded sample_shadowed)
  = [Some "T1055"; Some "T1055"; Some "T1055_attack-pattern--2"]
  /\ ids (main_loop always_embedded [] sample_shadowed)
     = [Some "T1055"; Some "T1055_attack-pattern--2";
        Some "T1055_attack-pattern--2_attack-pattern--3"].
Proof. split; vm_compute; reflexivity. Qed.

Lemma identity_resolution_witness :
  let st := main_loop always_embedded [] sample_shared_underscores in
  ids st !! 0 = Some (Some "T1055")
  /\ ids st !! 1 = Some (Some "T1055_attack_pattern--2")
  /\ NoDup (ids st).
Proof.
  destruct (identity_resolution always_embedded [] sample_shared_underscores)
    as (_ & Hseen & Hfresh & Hdistinct).
  assert (Hplain :
    plain_ids (embedded_records always_embedded sample_shared_underscores)).
  { apply (bool_decide_unpack _). vm_compute. exact I. }
  assert (Hnat :
    NoDup (native_ids
             (embedded_records always_embedded sample_shared_underscores))).
  { apply (bool_decide_unpack _). vm_compute. exact I. }
  split; [|split].
  - apply (Hfresh Hplain 0 (technique "attack_pattern--1" "T1055")).
    + reflexivity.
    + apply (bool_decide_unpack _). vm_compute. exact I.
  - apply (Hseen 1 (technique "attack_pattern--2" "T1055")).
    + reflexivity.
    + apply (bool_decide_unpack _). vm_compute. exact I.
  - exact (Hdistinct Hplain Hnat).
Defined.

(** ** The retriever *)

Lemma format_loop_ok results docs : forall metas done_metas context_parts,
  first_metadatas results = Reply (map Some done_metas ++ map Some metas) ->
  length docs = length metas ->
  format_loop results (length done_metas) docs context_parts
  = Reply (context_parts
           ++ zip_with (fun doc meta => format_block meta doc) docs metas).
Proof.
  induction docs as [|doc docs IH]; intros metas done_metas parts Hfirst Hlen.
  - cbn. by rewrite app_nil_r.
  - destruct metas as [|meta metas]; [done|]. cbn [format_loop zip_with].
    rewrite Hfirst. rewrite lookup_app_r by (by rewrite length_map).
    rewrite length_map, Nat.sub_diag. cbn [map lookup list_lookup].
    replace (S (length done_metas)) with (length (done_metas ++ [meta]))
      by (rewrite length_app; cbn; lia).
    rewrite (IH metas (done_metas ++ [meta])).
    + by rewrite <- app_assoc.
    + rewrite Hfirst, map_app, <- app_assoc. done.
    + cbn in Hlen. lia.
Qed.

(** [C7] Retriever degradation.  When embedding the query raises an
    exception, [get_context] reports it and returns the empty context.  When
    the embedding succeeds and the store answers with documents and as many
    metadata entries, the context is the blocks
    "Source: <domain_id> (<name>)", line feed, document text, one per
    returned pair in the order of the answer, joined by the separator. *)
Theorem retriever_degradation {Vec : Type} (embed : string -> outcome Vec)
    (query : Vec -> nat -> outcome QueryResult)
    (query_text : string) (n_results : nat) :
  (forall e, embed query_text = Error e ->
     get_context embed query query_text n_results
     = ([ChRetrieveError e], Some ""))
  /\ (forall v docs metas more_docs more_metas,
        embed query_text = Ok v ->
        query v n_results
        = Ok {| res_documents := Some (docs :: more_docs);
                res_metadatas := Some (map Some metas :: more_metas) |} ->
        length docs = length metas ->
        get_context embed query query_text n_results
        = ([], Some (String.concat SEPARATOR
                       (zip_with
                          (fun doc meta =>
                             "Source: " +:+ py_str (meta_mitre_id meta)
                             +:+ " (" +:+ py_str (meta_name meta) +:+ ")"
                             +:+ NL +:+ doc)
                          docs metas)))).
Proof.
  split.
  - intros e He. unfold get_context, get_context_body. by rewrite He.
  - intros v docs metas more_docs more_metas He Hq Hlen.
    unfold get_context, get_context_body. rewrite He, Hq.
    cbn [res_documents].
    rewrite (format_loop_ok _ docs metas [] []); [done|done|done].
Qed.

Lemma retriever_degradation_witness :
  get_context (fun _ => @Error (list Z) "connection refused")
    (fun _ _ => Ok sample_hits) "what is process injection?" 3
  = ([ChRetrieveError "connection refused"], Some "")
  /\ get_context (fun _ => Ok [0%Z]) (fun _ _ => Ok sample_hits)
       "what is process injection?" 3
     = ([], Some ("Source: T1055 (Technique)" +:+ NL +:+ "First document"
                  +:+ SEPARATOR
                  +:+ "Source: T1547 (Technique)" +:+ NL
                  +:+ "Second document")).
Proof.
  split.
  - apply (retriever_degradation (fun _ => @Error (list Z) "connection refused")
             (fun _ _ => Ok sample_hits) "what is process injection?" 3).
    reflexivity.
  - destruct (retriever_degradation (fun _ => Ok [0%Z])
                (fun _ _ => Ok sample_hits) "what is process injection?" 3)
      as [_ Hok].
    rewrite (Hok [0%Z] ["First document"; "Second document"]
               [ build_metadata (technique "attack-pattern--1" "T1055")
                   (Some "T1055");
                 build_metadata (technique "attack-pattern--3" "T1547")
                   (Some "T1547") ] [] [] eq_refl eq_refl eq_refl).
    vm_compute. reflexivity.
Defined.

(** ** The assistant loop *)

Section ChatFacts.

Context {Vec : Type}.

Lemma get_context_embed_error (e : string) (queried : outcome QueryResult) u :
  get_context (fun _ : string => @Error Vec e) (fun _ _ => queried) u 3
  = ([ChRetrieveError e], Some "").
Proof. reflexivity. Qed.

Lemma get_context_interrupted (embedded : outcome Vec) queried u n lines :
  get_context (fun _ => embedded) (fun _ _ => queried) u n = (lines, None) ->
  interrupted (EvRetrieval embedded queried) = true.
Proof.
  unfold get_context, get_context_body.
  destruct embedded as [v|e|]; [|done..].
  destruct queried as [results|e|]; [|done..].
  destruct (res_documents results) as [[|docs more]|]; try done.
  destruct (format_loop results 0 docs []); done.
Qed.

Lemma step_terminated (s : chat_state) (ev : @event Vec) lines :
  step s ev = Some (Terminated, lines) ->
  (s = AwaitingInput /\ exit_requested ev = true) \/ interrupted ev = true.
Proof.
  destruct s as [|u|[msgs|full]|]; destruct ev as [r|embedded queried|r|r];
    cbn [step]; try done.
  - destruct r as [line|e|]; cbn; [|done|by right].
    destruct (is_exit_command (strip line)) eqn:E; [by left|].
    by destruct (negb (nonempty (strip line))).
  - destruct (get_context _ _ u 3) as [lines' [context|]] eqn:E; [done|].
    intros _. right. by apply get_context_interrupted in E.
  - destruct r as [[]|e|]; try done. by right.
  - destruct r as [[c|]|e|]; try done. by right.
Qed.

Lemma step_interrupted (s s' : chat_state) (ev : @event Vec) lines :
  step s ev = Some (s', lines) -> interrupted ev = true ->
  s' = Terminated /\ lines = [ChExiting].
Proof.
  destruct s as [|u|[msgs|full]|]; destruct ev as [r|embedded queried|r|r];
    cbn [step interrupted]; try done.
  - destruct r as [line|e|]; try done. by intros [= <- <-].
  - destruct embedded as [v|e|]; [|done|by intros [= <- <-]].
    destruct queried as [results|e|]; try done. by intros [= <- <-].
  - destruct r as [[]|e|]; try done. by intros [= <- <-].
  - destruct r as [[c|]|e|]; try done. by intros [= <- <-].
Qed.

Lemma run_terminated (evs : list (@event Vec)) : forall s s' lines,
  run s evs = Some (s', lines) -> s' = Terminated ->
  s = Terminated
  \/ exists ev, ev ∈ evs /\ (exit_requested ev = true \/ interrupted ev = true).
Proof.
  induction evs as [|ev evs IH]; intros s s' lines Hrun ->.
  - cbn in Hrun. injection Hrun as -> _. by left.
  - cbn [run] in Hrun. destruct (step s ev) as [[s1 l1]|] eqn:Hstep; [|done].
    destruct (run s1 evs) as [[s2 l2]|] eqn:Hrest; [|done].
    injection Hrun as -> _. right.
    destruct (IH s1 Terminated l2 Hrest eq_refl) as [->|(ev' & Hin & Hev)].
    + exists ev. split; [by left|].
      apply step_terminated in Hstep as [[_ H]|H]; auto.
    + exists ev'. split; [by right|done].
Qed.

Lemma run_stream (contents : list string) : forall full,
  run (Generating (Streaming full))
    (map (fun c => @EvChunk Vec (Ok (Some c))) contents ++ [EvChunk (Ok None)])
  = Some (AwaitingInput, map ChContent contents ++ [ChEndOfAnswer]).
Proof.
  induction contents as [|c contents IH]; intros full; [done|].
  cbn [map app run step]. by rewrite IH.
Qed.

End ChatFacts.

(** [C8] Per-turn errors in the assistant loop, as the code has it.  An
    exception in the retrieval is caught inside the retriever and reported;
    the turn goes on to the generation with an empty context.  An exception
    in the generation, at the request or while the stream is read, is caught
    and reported, and the loop is back in [AwaitingInput].  A turn whose
    retrieval failed and whose answer then arrives ends in [AwaitingInput].
    A transition into [Terminated] is either the reading of an exit keyword
    in [AwaitingInput] or an interrupt, which ends the session from
    [AwaitingInput], [Retrieving] and [Generating] alike; hence a run that
    is terminated has met one of the two.  Conversely an interrupt is
    accepted in each of the three states and always ends the session, with
    the farewell line and nothing else, and an exit keyword read in
    [AwaitingInput] ends it without a line. *)
Theorem assistant_loop_recovery {Vec : Type} :
  (forall u e queried,
     @step Vec (Retrieving u) (EvRetrieval (Error e) queried)
     = Some (Generating (Calling (build_messages "" u)),
             [ChRetrieveError e; ChClearLine; ChThinking]))
  /\ (forall u (v : Vec) e,
        step (Retrieving u) (EvRetrieval (Ok v) (Error e))
        = Some (Generating (Calling (build_messages "" u)),
                [ChRetrieveError e; ChClearLine; ChThinking]))
  /\ (forall messages e,
        @step Vec (Generating (Calling messages)) (EvChat (Error e))
        = Some (AwaitingInput, [ChError e]))
  /\ (forall full_response e,
        @step Vec (Generating (Streaming full_response)) (EvChunk (Error e))
        = Some (AwaitingInput, [ChError e]))
  /\ (forall u e queried contents,
        @run Vec (Retrieving u)
          (EvRetrieval (Error e) queried :: answer_events contents)
        = Some (AwaitingInput,
                [ChRetrieveError e; ChClearLine; ChThinking; ChAssistant]
                ++ map ChContent contents ++ [ChEndOfAnswer]))
  /\ (forall (s : chat_state) (ev : @event Vec) lines,
        step s ev = Some (Terminated, lines) ->
        (s = AwaitingInput /\ exit_requested ev = true)
        \/ interrupted ev = true)
  /\ (forall (s s' : chat_state) (evs : list (@event Vec)) lines,
        run s evs = Some (s', lines) -> s' = Terminated ->
        s = Terminated
        \/ exists ev, ev ∈ evs
                      /\ (exit_requested ev = true \/ interrupted ev = true))
  /\ (forall (s s' : chat_state) (ev : @event Vec) lines,
        step s ev = Some (s', lines) -> interrupted ev = true ->
        s' = Terminated /\ lines = [ChExiting])
  /\ @step Vec AwaitingInput (EvInput Interrupt)
     = Some (Terminated, [ChExiting])
  /\ (forall u queried,
        @step Vec (Retrieving u) (EvRetrieval Interrupt queried)
        = Some (Terminated, [ChExiting]))
  /\ (forall u (v : Vec),
        step (Retrieving u) (EvRetrieval (Ok v) Interrupt)
        = Some (Terminated, [ChExiting]))
  /\ (forall messages,
        @step Vec (Generating (Calling messages)) (EvChat Interrupt)
        = Some (Terminated, [ChExiting]))
  /\ (forall full_response,
        @step Vec (Generating (Streaming full_response)) (EvChunk Interrupt)
        = Some (Terminated, [ChExiting]))
  /\ (forall ev : @event Vec,
        exit_requested ev = true ->
        step AwaitingInput ev = Some (Terminated, [])).
Proof.
  split; [done|]. split; [done|]. split; [done|]. split; [done|].
  split; [|split; [|split; [|split]]].
  - intros u e queried contents. unfold answer_events.
    cbn [run]. cbn [step]. rewrite get_context_embed_error.
    cbn [run step app]. by rewrite run_stream.
  - apply step_terminated.
  - intros s s' evs lines. apply run_terminated.
  - apply step_interrupted.
  - split; [done|]. split; [done|]. split; [done|]. split; [done|].
    split; [done|].
    intros [[line|e|]|?|?|?]; cbn [exit_requested step]; try done.
    by intros ->.
Qed.

(** An interrupt while the answer is streamed ends the session from
    [Generating]. *)
Lemma interrupt_ends_generation :
  ~ (forall (s : chat_state) (ev : @event (list Z)) lines,
       step s ev = Some (Terminated, lines) -> s = AwaitingInput).
Proof.
  intros H.
  specialize (H (Generating (Streaming "Process injection is"))
                (EvChunk Interrupt) [ChExiting] eq_refl).
  discriminate H.
Qed.

Lemma assistant_loop_recovery_witness :
  ((AwaitingInput = AwaitingInput
    /\ exit_requested (@EvInput (list Z) (Ok "  Quit ")) = true)
   \/ interrupted (@EvInput (list Z) (Ok "  Quit ")) = true)
  /\ @step (list Z) (Retrieving "what is T1055?")
       (EvRetrieval (Ok [0%Z]) Interrupt)
     = Some (Terminated, [ChExiting]).
Proof.
  destruct (@assistant_loop_recovery (list Z))
    as (_ & _ & _ & _ & _ & Hstep & _ & Hint & _).
  split.
  - apply (Hstep AwaitingInput (EvInput (Ok "  Quit ")) []).
    vm_compute. reflexivity.
  - destruct (@step (list Z) (Retrieving "what is T1055?")
                (EvRetrieval (Ok [0%Z]) Interrupt))
      as [[s' lines]|] eqn:E; [|discriminate E].
    destruct (Hint (Retrieving "what is T1055?") s'
                (EvRetrieval (Ok [0%Z]) Interrupt) lines E eq_refl)
      as [-> ->].
    reflexivity.
Defined.

(** ** Exit statuses *)

Lemma chat_loop_end {Vec : Type} (client collection : reply unit)
    (events : list (@event Vec)) st lines t :
  chat_loop client collection events = Some (st, lines) ->
  chat_end st = Some t ->
  (st = SetupFailed /\ exit_code t = 1%Z
   /\ ((exists e, client = Failure e) \/ (exists e, collection = Failure e)))
  \/ (st = InLoop Terminated /\ exit_code t = 0%Z
      /\ (exists u, client = Reply u) /\ (exists u, collection = Reply u)).
Proof.
  unfold chat_loop. intros Hloop Hend.
  destruct client as [u1|e1]; [destruct collection as [u2|e2]|].
  - destruct (run AwaitingInput events) as [[s l]|]; [|done].
    injection Hloop as <- _. right.
    destruct s; cbn in Hend; try done. injection Hend as <-.
    repeat split; eauto.
  - injection Hloop as <- _. injection Hend as <-. left. eauto 6.
  - injection Hloop as <- _. injection Hend as <-. left. eauto 6.
Qed.

(** [C9] Exit statuses, as the code has them.  The ingestion script exits
    with 1 when the knowledge-base file is missing or the store cannot be
    opened (the exception is not caught) and with 0 when it completes.  The
    chat script exits with 1 when the store cannot be opened or the
    collection is missing, and with 0 when the loop is left by an exit
    keyword or an interrupt.  The audit script reports a missing file, a
    failed connection or a missing collection and returns: its exit status
    is 0 in every case. *)
Theorem exit_code_contract {Vec : Type} :
  (forall ollama client collection upsert,
     exit_code (run_end (@process_mitre_main Vec
       {| env_file := None; env_ollama := ollama; env_client := client;
          env_collection := collection; env_upsert := upsert |})) = 1%Z)
  /\ (forall data ollama e collection upsert,
        exit_code (run_end (@process_mitre_main Vec
          {| env_file := Some data; env_ollama := ollama;
             env_client := Failure e; env_collection := collection;
             env_upsert := upsert |})) = 1%Z)
  /\ (forall data ollama u e upsert,
        exit_code (run_end (@process_mitre_main Vec
          {| env_file := Some data; env_ollama := ollama;
             env_client := Reply u; env_collection := Failure e;
             env_upsert := upsert |})) = 1%Z)
  /\ (forall data ollama u1 u2,
        exit_code (run_end (@process_mitre_main Vec
          {| env_file := Some data; env_ollama := ollama;
             env_client := Reply u1; env_collection := Reply u2;
             env_upsert := fun _ _ => Reply () |})) = 0%Z)
  /\ (forall client collection (events : list (@event Vec)) st lines t,
        chat_loop client collection events = Some (st, lines) ->
        chat_end st = Some t ->
        (st = SetupFailed /\ exit_code t = 1%Z
         /\ ((exists e, client = Failure e)
             \/ (exists e, collection = Failure e)))
        \/ (st = InLoop Terminated /\ exit_code t = 0%Z
            /\ (exists u, client = Reply u)
            /\ (exists u, collection = Reply u)))
  /\ (forall e collection (events : list (@event Vec)),
        chat_loop (Failure e) collection events
        = Some (SetupFailed, [ChConnecting; ChConnectFailed e]))
  /\ (forall u e (events : list (@event Vec)),
        chat_loop (Reply u) (Failure e) events
        = Some (SetupFailed, [ChConnecting; ChConnectFailed e]))
  /\ (forall file client collection db_count,
        exit_code (audit_mitre_main file client collection db_count).2 = 0%Z).
Proof.
  split; [done|]. split; [done|]. split; [done|].
  split; [|split; [|split; [|split]]].
  - intros data ollama u1 u2. unfold process_mitre_main.
    cbn [load_mitre_data env_file env_ollama env_client env_collection
         env_upsert].
    rewrite upsert_loop_all_ok by eauto. done.
  - intros *. apply chat_loop_end.
  - done.
  - done.
  - intros file client collection db_count. unfold audit_mitre_main.
    destruct file as [data|]; [|done].
    destruct client; [|done]. destruct collection; [|done].
    by destruct db_count.
Qed.

(** The audit script ends with status 0, not 1, when the knowledge-base file
    is missing. *)
Lemma audit_missing_file_exit_code :
  audit_mitre_main None (Reply ()) (Reply ()) (Reply 0)
  = ([AuBanner; AuReading; AuSourceNotFound], Returned)
  /\ exit_code (audit_mitre_main None (Reply ()) (Reply ()) (Reply 0)).2
     <> 1%Z.
Proof. split; [reflexivity|]. vm_compute. discriminate. Qed.

Lemma exit_code_contract_witness :
  chat_loop (Reply ()) (Reply ()) [@EvInput (list Z) (Ok "  Quit ")]
  = Some (InLoop Terminated, [ChConnecting; ChConnected; ChReady])
  /\ chat_end (InLoop Terminated) = Some Returned
  /\ exit_code Returned = 0%Z.
Proof.
  assert (Hrun :
    chat_loop (Reply ()) (Reply ()) [@EvInput (list Z) (Ok "  Quit ")]
    = Some (InLoop Terminated, [ChConnecting; ChConnected; ChReady]))
    by (vm_compute; reflexivity).
  assert (Hend : chat_end (InLoop Terminated) = Some Returned)
    by reflexivity.
  destruct (@exit_code_contract (list Z)) as (_ & _ & _ & _ & Hchat & _).
  destruct (Hchat _ _ _ _ _ _ Hrun Hend) as [[Hst _]|(_ & Hcode & _)];
    [discriminate Hst|].
  repeat split; done.
Defined.

(** * Further properties of the code *)

(** ** The record filter and the embedding loop *)

Lemma list_filter_idem {A} (f : A -> bool) l :
  List.filter f (List.filter f l) = List.filter f l.
Proof.
  induction l as [|x l IH]; [done|]. cbn.
  destruct (f x) eqn:E; cbn; rewrite ?E, IH; done.
Qed.

(** [X1] Filtering composes: the filter of a concatenation is the
    concatenation of the filters, filtering twice is filtering once, the
    output is never longer than the input, and it is as long only when
    nothing was dropped. *)
Theorem filter_objects_compose (l1 l2 : list KnowledgeObject) :
  filter_objects (l1 ++ l2) = filter_objects l1 ++ filter_objects l2
  /\ filter_objects (filter_objects l1) = filter_objects l1
  /\ length (filter_objects l1) <= length l1
  /\ (length (filter_objects l1) = length l1 -> filter_objects l1 = l1).
Proof.
  rewrite !filter_objects_filter. split; [apply List.filter_app|].
  split; [apply list_filter_idem|]. split; [apply List.filter_length_le|].
  induction l1 as [|x l IH]; [done|]. cbn.
  pose proof (List.filter_length_le eligible l).
  destruct (eligible x); cbn; intros Hlen; [|lia].
  f_equal. apply IH. lia.
Qed.

Lemma filter_objects_compose_witness :
  length (filter_objects sample_shared) = length sample_shared
  /\ filter_objects sample_shared = sample_shared.
Proof.
  assert (Hlen : length (filter_objects sample_shared) = length sample_shared)
    by reflexivity.
  split; [exact Hlen|].
  destruct (filter_objects_compose sample_shared []) as (_ & _ & _ & Hsame).
  exact (Hsame Hlen).
Defined.

Section Accounting.

Context {Vec : Type}.
Variable ollama : nat -> string -> reply Vec.

Lemma embedded_failed_length objects : forall calls,
  length (embedded_from ollama calls objects)
  + length (failed_from ollama calls objects) = length objects.
Proof.
  induction objects as [|o objects IH]; intros calls; [done|].
  cbn [embedded_from failed_from]. specialize (IH (S calls)).
  destruct (ollama calls (document_of o)); cbn; lia.
Qed.

Lemma embedded_sublist objects : forall calls,
  map fst (embedded_from ollama calls objects) `sublist_of` objects.
Proof.
  induction objects as [|o objects IH]; intros calls; [constructor|].
  cbn [embedded_from].
  destruct (ollama calls (document_of o)); cbn; by constructor.
Qed.

Lemma embedded_in objects calls obj :
  In obj (map fst (embedded_from ollama calls objects)) -> In obj objects.
Proof.
  intros Hin. apply list_elem_of_In.
  apply (elem_of_sublist _ _ _ (proj2 (list_elem_of_In _ _) Hin)
           (embedded_sublist objects calls)).
Qed.

End Accounting.

Lemma sublist_map {A B} (f : A -> B) (l1 l2 : list A) :
  l1 `sublist_of` l2 -> map f l1 `sublist_of` map f l2.
Proof. induction 1; cbn; by constructor. Qed.

Lemma eligible_in_filter objects obj :
  In obj (filter_objects objects) -> eligible obj = true.
Proof. rewrite filter_objects_filter. by intros [_ ?]%filter_In. Qed.

(** [X2] Accounting of the embedding loop, whatever the embedding service
    answers: the entries kept and the records skipped add up to the records
    processed; Ollama is asked once per record; the documents kept are a
    subsequence of the records' documents; the skip lines are those of the
    failed records, in order, each with its domain id. *)
Theorem ingestion_accounting {Vec : Type} (ollama : nat -> string -> reply Vec)
    (printed0 : list ingest_line) (objects : list KnowledgeObject) :
  let st := main_loop ollama printed0 objects in
  let failed := failed_from ollama 0 objects in
  length (documents st) + length failed = length objects
  /\ ollama_calls st = length objects
  /\ count st = length objects
  /\ documents st `sublist_of` map document_of objects
  /\ List.filter is_skipping (printed st)
     = List.filter is_skipping printed0
       ++ map (fun obj => PrSkipping (domain_id obj)) failed.
Proof.
  intros st failed.
  destruct (foldl_main_step ollama (length objects) objects
              (loop_init printed0)) as (Hd & _ & _ & _ & Hc & Ho & Hp).
  fold (main_loop ollama printed0 objects) in Hd, Hc, Ho, Hp.
  fold st in Hd, Hc, Ho, Hp. cbn in Hd, Hc, Ho, Hp. fold failed in Hp.
  pose proof (embedded_failed_length ollama objects 0) as Hlen.
  fold failed in Hlen.
  split; [by rewrite Hd, length_map|]. split; [done|]. split; [done|].
  split; [|done].
  rewrite Hd. rewrite <- (map_map fst document_of).
  apply sublist_map, embedded_sublist.
Qed.

(** [X3] The audit after an ingestion run.  The count the audit expects is
    the number of entries the run handed to the store plus the number of
    embedding failures; against a store that holds exactly these entries the
    audit reports success when no embedding failed and otherwise reports as
    missing the number of failures. *)
Theorem audit_after_ingestion {Vec : Type} (ollama : nat -> string -> reply Vec)
    (printed0 : list ingest_line) (all_objects : list KnowledgeObject) :
  let objects := filter_objects all_objects in
  let st := main_loop ollama printed0 objects in
  let failures := length (failed_from ollama 0 objects) in
  let expected := length (relevant_objects (audit_loop all_objects)) in
  expected = length (documents st) + failures
  /\ audit_diagnosis expected (length (documents st))
     = match failures with
       | 0 => [AuSuccess]
       | S _ => [AuMissing (Z.of_nat failures)]
       end.
Proof.
  intros objects st failures expected.
  assert (Hexp : expected = length objects).
  { subst expected objects. unfold audit_loop.
    destruct (foldl_audit_step all_objects
      {| relevant_objects := []; skipped_types := 0; skipped_revoked := 0 |})
      as (Hr & _). cbn in Hr. by rewrite Hr, filter_objects_filter. }
  destruct (foldl_main_step ollama (length objects) objects
              (loop_init printed0)) as (Hd & _).
  fold (main_loop ollama printed0 objects) in Hd. fold st in Hd. cbn in Hd.
  pose proof (embedded_failed_length ollama objects 0) as Hlen.
  fold failures in Hlen.
  assert (Hsum : expected = length (documents st) + failures).
  { rewrite Hexp, Hd, length_map. lia. }
  split; [done|]. unfold audit_diagnosis. rewrite Hsum.
  destruct failures as [|n].
  - rewrite Nat.add_0_r, Z.sub_diag. done.
  - destruct (Z.eqb_spec (Z.of_nat (length (documents st) + S n)
                          - Z.of_nat (length (documents st))) 0) as [E|_];
      [lia|].
    destruct (Z.ltb_spec 0 (Z.of_nat (length (documents st) + S n)
                            - Z.of_nat (length (documents st)))) as [_|E];
      [|lia].
    do 2 f_equal. lia.
Qed.

(** [X6] Metadata of what is indexed.  Every metadata record built in a run
    over the filter's output says "False" for [deprecated] and carries one
    of the allowed types; its name, platforms and url are strings. *)
Theorem indexed_metadata_fields {Vec : Type}
    (ollama : nat -> string -> reply Vec) (printed0 : list ingest_line)
    (all_objects : list KnowledgeObject) (m : Metadata) :
  In m (metadatas (main_loop ollama printed0 (filter_objects all_objects))) ->
  meta_deprecated m = Some "False"
  /\ (exists t, meta_type m = Some t /\ t ∈ ALLOWED_TYPES)
  /\ (exists name, meta_name m = Some name)
  /\ (exists platforms, meta_platforms m = Some platforms)
  /\ (exists url, meta_url m = Some url).
Proof.
  intros Hin.
  destruct (foldl_main_step ollama (length (filter_objects all_objects))
              (filter_objects all_objects) (loop_init printed0))
    as (_ & Hm & _).
  fold (main_loop ollama printed0 (filter_objects all_objects)) in Hm.
  cbn in Hm. rewrite Hm in Hin. apply in_map_iff in Hin as ([obj v] & <- & Hp).
  assert (Hobj : In obj (filter_objects all_objects)).
  { apply (embedded_in ollama _ 0). apply in_map_iff. by exists (obj, v). }
  apply eligible_in_filter in Hobj. cbn [fst build_metadata meta_deprecated
    meta_type meta_name meta_platforms meta_url].
  apply eligible_spec in Hobj as ((t & Ht & Hall) & _ & Hdep).
  split; [destruct (obj_x_mitre_deprecated obj) as [[]|]; done|].
  split; [by exists t|]. repeat split; eauto.
Qed.

Lemma indexed_metadata_fields_witness :
  meta_deprecated
    (build_metadata (technique "attack-pattern--1" "T1055") (Some "T1055"))
  = Some "False".
Proof.
  apply (indexed_metadata_fields always_embedded [] sample_shared).
  vm_compute. left. reflexivity.
Defined.

(** [X7] One reference decides both the domain id and the url.  When the
    object has a "mitre-attack" reference, the first one gives the extracted
    id (or "UNKNOWN" without [external_id]) and the metadata url (or the
    empty string without [url]); when it has none, the domain id is the
    native id and the url is empty. *)
Theorem metadata_reference (obj : KnowledgeObject) :
  let refs := default [] (obj_external_references obj) in
  match List.find is_mitre_attack refs with
  | Some ref =>
      ref_source_name ref = Some "mitre-attack"
      /\ extract_mitre_id refs = default "UNKNOWN" (ref_external_id ref)
      /\ meta_url (build_metadata obj (domain_id obj))
         = Some (default "" (ref_url ref))
  | None =>
      domain_id obj = obj_id obj
      /\ meta_url (build_metadata obj (domain_id obj)) = Some ""
  end.
Proof.
  intros refs. unfold domain_id. fold refs. cbn [build_metadata meta_url].
  fold refs. generalize refs. clear. intros refs.
  assert (G : first_mitre_url refs
    = match List.find is_mitre_attack refs with
      | Some ref => default "" (ref_url ref) | None => "" end).
  { induction refs as [|r refs IH]; [done|]. cbn.
    by destruct (is_mitre_attack r). }
  rewrite G, extract_mitre_id_find.
  destruct (List.find is_mitre_attack refs) as [ref|] eqn:Hfind; [|done].
  apply find_some in Hfind as [_ Hm]. unfold is_mitre_attack in Hm.
  apply bool_decide_eq_true in Hm. done.
Qed.

(** [X8] The four lists stay aligned.  For the record that is the [i]-th to
    be embedded, position [i] holds its document, the vector received for
    it, its metadata with the bare domain id, and a key that is its domain
    id or its composite key. *)
Theorem entries_aligned {Vec : Type} (ollama : nat -> string -> reply Vec)
    (printed0 : list ingest_line) (objects : list KnowledgeObject)
    (i : nat) (obj : KnowledgeObject) (v : Vec) :
  let st := main_loop ollama printed0 objects in
  embedded_from ollama 0 objects !! i = Some (obj, v) ->
  documents st !! i = Some (document_of obj)
  /\ embeddings st !! i = Some v
  /\ metadatas st !! i = Some (build_metadata obj (domain_id obj))
  /\ meta_mitre_id (build_metadata obj (domain_id obj)) = domain_id obj
  /\ (ids st !! i = Some (domain_id obj)
      \/ ids st !! i = Some (composite_key obj)).
Proof.
  intros st Hi.
  destruct (foldl_main_step ollama (length objects) objects
              (loop_init printed0)) as (Hd & Hm & Hids & He & _).
  fold (main_loop ollama printed0 objects) in Hd, Hm, Hids, He.
  fold st in Hd, Hm, Hids, He. cbn in Hd, Hm, Hids, He.
  rewrite Hd, Hm, Hids, He.
  assert (Hmap : forall {B} (f : KnowledgeObject * Vec -> B),
            map f (embedded_from ollama 0 objects) !! i = Some (f (obj, v))).
  { intros B f. change (map f ?l) with (f <$> l).
    by rewrite list_lookup_fmap, Hi. }
  rewrite !Hmap. split; [done|]. split; [done|]. split; [done|].
  split; [done|].
  rewrite (assign_ids_lookup _ i obj); [|exact (Hmap _ fst)].
  unfold resolve_id, composite_key. case_bool_decide; auto.
Qed.

Lemma entries_aligned_witness :
  let st := main_loop always_embedded [] sample_shared in
  documents st !! 1
  = Some (document_of (technique "attack-pattern--2" "T1055"))
  /\ embeddings st !! 1 = Some [0%Z].
Proof.
  destruct (entries_aligned always_embedded [] sample_shared 1
              (technique "attack-pattern--2" "T1055") [0%Z] eq_refl)
    as (Hd & He & _).
  split; [exact Hd|exact He].
Defined.

(** ** The upsert loop *)

Section UpsertFacts.

Context {Vec : Type}.
Variable upsert : nat -> @upsert_call Vec -> reply unit.
Variable st : @loop_state Vec.

Lemma upsert_loop_prefix ranges : forall k,
  let r := upsert_loop upsert st k ranges in
  r.1.2 `prefix_of` map (batch_call st) ranges
  /\ (r.2 = Returned -> r.1.2 = map (batch_call st) ranges)
  /\ (r.2 = Returned \/ exists e, r.2 = Uncaught e).
Proof.
  induction ranges as [|b ranges IH]; intros k; cbn [upsert_loop map].
  - cbn. repeat split; try done; by left.
  - destruct (upsert k (batch_call st b)) as [u|e] eqn:Hup.
    + specialize (IH (S k)).
      destruct (upsert_loop upsert st (S k) ranges) as [[lines calls] t].
      cbn in IH |- *. destruct IH as (Hpre & Hret & Hend).
      repeat split.
      * by apply prefix_cons.
      * intros Ht. f_equal. by apply Hret.
      * done.
    + cbn. repeat split.
      * apply prefix_nil.
      * done.
      * right. eauto.
Qed.

Lemma upsert_loop_fails_at ranges : forall k j e,
  (forall n c, k <= n -> n < j -> exists u, upsert n c = Reply u) ->
  (forall c, upsert j c = Failure e) ->
  k <= j -> j - k < length ranges ->
  upsert_loop upsert st k ranges
  = (map (fun b : nat * nat => PrUpsertingBatch b.1 b.2)
       (take (S (j - k)) ranges),
     map (batch_call st) (take (j - k) ranges), Uncaught e).
Proof.
  induction ranges as [|b ranges IH]; intros k j e Hok Hfail Hkj Hlen;
    [cbn in Hlen; lia|].
  cbn [upsert_loop]. destruct (decide (j = k)) as [->|Hne].
  - rewrite Hfail, Nat.sub_diag. done.
  - destruct (Hok k (batch_call st b)) as [u ->]; [lia..|].
    rewrite (IH (S k) j e); [| |done|lia|cbn in Hlen; lia].
    + replace (j - k) with (S (j - S k)) by lia. done.
    + intros n c ? ?. apply Hok; lia.
Qed.

End UpsertFacts.

(** [X4] What the store receives.  Whatever the services answer, once the
    knowledge base is read the upserts a run commits are the first batches
    of the run, in order; a run that returns has committed all of them; and
    a run ends by returning or by an uncaught exception. *)
Theorem upserts_prefix {Vec : Type} (env : @ingest_env Vec)
    (data : KnowledgeBase) :
  let objects := filter_objects (default [] (kb_objects data)) in
  let st :=
    main_loop (env_ollama env)
      [PrLoading; PrFound (length objects); PrProcessingObjects] objects in
  let r := process_mitre_main env in
  env_file env = Some data ->
  run_upserts r `prefix_of` batch_calls st
  /\ (run_end r = Returned -> run_upserts r = batch_calls st)
  /\ (run_end r = Returned \/ exists e, run_end r = Uncaught e).
Proof.
  intros objects st r Hfile. subst r.
  unfold process_mitre_main, load_mitre_data. rewrite Hfile.
  fold objects. fold st.
  destruct (env_client env) as [u1|e1].
  - destruct (env_collection env) as [u2|e2].
    + pose proof (upsert_loop_prefix (env_upsert env) st
                    (batch_ranges (length (documents st))) 0)
        as (Hpre & Hret & Hend).
      destruct (upsert_loop (env_upsert env) st 0
                  (batch_ranges (length (documents st))))
        as [[lines calls] t].
      cbn in Hpre, Hret, Hend |- *. done.
    + cbn. split; [apply prefix_nil|]. split; [done|]. right. eauto.
  - cbn. split; [apply prefix_nil|]. split; [done|]. right. eauto.
Qed.

Lemma upserts_prefix_witness :
  run_end (process_mitre_main sample_env_store_down) = Uncaught "disk full"
  /\ run_upserts (process_mitre_main sample_env_store_down)
     `prefix_of`
     batch_calls
       (main_loop always_embedded
          [PrLoading; PrFound 3; PrProcessingObjects] sample_shared).
Proof.
  split; [reflexivity|].
  destruct (upserts_prefix sample_env_store_down
              {| kb_objects := Some sample_shared |} eq_refl) as [Hpre _].
  exact Hpre.
Defined.

(** [X5] A failing upsert.  When the store answers the first [j] upserts and
    refuses the next, the run has committed exactly the first [j] batches,
    ends with the uncaught exception (exit status 1), and the last line it
    wrote announces the batch that failed. *)
Theorem upsert_failure_commits_prefix {Vec : Type} (env : @ingest_env Vec)
    (data : KnowledgeBase) (j : nat) (e : string) :
  let objects := filter_objects (default [] (kb_objects data)) in
  let st :=
    main_loop (env_ollama env)
      [PrLoading; PrFound (length objects); PrProcessingObjects] objects in
  let r := process_mitre_main env in
  env_file env = Some data ->
  (exists u, env_client env = Reply u) ->
  (exists u, env_collection env = Reply u) ->
  (forall n c, n < j -> exists u, env_upsert env n c = Reply u) ->
  (forall c, env_upsert env j c = Failure e) ->
  j < length (batch_calls st) ->
  run_upserts r = take j (batch_calls st)
  /\ run_end r = Uncaught e
  /\ exit_code (run_end r) = 1%Z
  /\ last (run_printed r)
     = Some (PrUpsertingBatch (j * batch_size)
               (Nat.min (j * batch_size + batch_size)
                  (length (documents st)))).
Proof.
  intros objects st r Hfile [u1 Hcl] [u2 Hco] Hok Hfail Hj. subst r.
  unfold process_mitre_main, load_mitre_data. rewrite Hfile.
  fold objects. fold st. rewrite Hcl, Hco.
  unfold batch_calls in Hj. rewrite length_map in Hj.
  rewrite (upsert_loop_fails_at (env_upsert env) st _ 0 j e);
    [|intros; apply Hok; lia|done|lia|lia].
  rewrite Nat.sub_0_r. cbn [run_upserts run_end run_printed exit_code].
  split; [unfold batch_calls; by rewrite firstn_map|].
  split; [done|]. split; [done|].
  rewrite app_nil_r, !app_assoc.
  destruct (lookup_lt_is_Some_2 (batch_ranges (length (documents st))) j Hj)
    as [b Hb].
  rewrite (take_S_r _ _ _ Hb), map_app, app_assoc. cbn [map].
  rewrite last_snoc. f_equal.
  unfold batch_ranges, py_range in Hb.
  rewrite list_lookup_fmap, list_lookup_fmap in Hb.
  destruct (seq 0 _ !! j) as [k|] eqn:Hk; [|done].
  apply lookup_seq in Hk as [-> _]. cbn in Hb. injection Hb as <-.
  done.
Qed.

Lemma upsert_failure_commits_prefix_witness :
  run_upserts (process_mitre_main sample_env_store_down) = []
  /\ run_end (process_mitre_main sample_env_store_down)
     = Uncaught "disk full"
  /\ last (run_printed (process_mitre_main sample_env_store_down))
     = Some (PrUpsertingBatch 0 3).
Proof.
  destruct (upsert_failure_commits_prefix sample_env_store_down
              {| kb_objects := Some sample_shared |} 0 "disk full")
    as (Hup & Hend & _ & Hlast).
  - reflexivity.
  - by exists ().
  - by exists ().
  - intros n c Hn. exfalso. inversion Hn.
  - reflexivity.
  - vm_compute. constructor.
  - split; [exact Hup|]. split; [exact Hend|exact Hlast].
Defined.

(** ** The batches *)

Lemma batch_ranges_lookup len k b :
  batch_ranges len !! k = Some b ->
  b = (k * batch_size, Nat.min (k * batch_size + batch_size) len)
  /\ k * batch_size < len.
Proof.
  unfold batch_ranges, py_range. change (map ?f ?l) with (f <$> l).
  rewrite !list_lookup_fmap.
  destruct (seq 0 _ !! k) as [k'|] eqn:Hk; [|done].
  apply lookup_seq in Hk as [-> Hk]. cbn. intros [= <-]. split; [done|].
  unfold batch_size in *.
  pose proof (Nat.div_mod_eq (len - 0 + 100 - 1) 100) as Hd.
  pose proof (Nat.mod_upper_bound (len - 0 + 100 - 1) 100). nia.
Qed.

(** [X9] The batches in closed form.  For [len] records there are [len]
    divided by 100, rounded up, batches; batch [k] covers the indices from
    [100 k] to the smaller of [100 k + 100] and [len], is not empty and
    holds at most 100 records; no batch is issued exactly when there is no
    record. *)
Theorem batch_ranges_closed_form (len : nat) :
  length (batch_ranges len) = (len + batch_size - 1) / batch_size
  /\ (forall k b, batch_ranges len !! k = Some b ->
        b = (k * batch_size, Nat.min (k * batch_size + batch_size) len)
        /\ b.1 < b.2 /\ b.2 - b.1 <= batch_size)
  /\ (len = 0 <-> batch_ranges len = []).
Proof.
  split; [|split].
  - unfold batch_ranges, py_range. rewrite !length_map, length_seq.
    by rewrite Nat.sub_0_r.
  - intros k b Hb. apply batch_ranges_lookup in Hb as [-> Hk].
    split; [done|]. cbn. unfold batch_size in *. lia.
  - split; [by intros ->|].
    intros Hnil. destruct len as [|n]; [done|]. exfalso.
    assert (Hlen : length (batch_ranges (S n)) = 0) by (by rewrite Hnil).
    unfold batch_ranges, py_range in Hlen.
    rewrite !length_map, length_seq in Hlen. unfold batch_size in Hlen.
    pose proof (Nat.div_mod_eq (S n - 0 + 100 - 1) 100) as Hd.
    pose proof (Nat.mod_upper_bound (S n - 0 + 100 - 1) 100). lia.
Qed.

Lemma batch_ranges_closed_form_witness :
  batch_ranges 420 !! 4 = Some (400, 420)
  /\ (400, 420) = (4 * batch_size, Nat.min (4 * batch_size + batch_size) 420)
  /\ (400, 420).1 < (400, 420).2.
Proof.
  assert (H : batch_ranges 420 !! 4 = Some (400, 420)) by reflexivity.
  destruct (batch_ranges_closed_form 420) as (_ & Hk & _).
  destruct (Hk 4 (400, 420) H) as (Heq & Hlt & _).
  split; [exact H|]. split; [exact Heq|exact Hlt].
Defined.

(** [X10] The arguments of an upsert call.  In every call a run issues, the
    lists of documents, keys, vectors and metadata have the same length,
    between 1 and 100. *)
Theorem upsert_calls_aligned {Vec : Type} (ollama : nat -> string -> reply Vec)
    (printed0 : list ingest_line) (objects : list KnowledgeObject)
    (c : @upsert_call Vec) :
  In c (batch_calls (main_loop ollama printed0 objects)) ->
  0 < length (up_documents c) <= batch_size
  /\ length (up_ids c) = length (up_documents c)
  /\ length (up_embeddings c) = length (up_documents c)
  /\ length (up_metadatas c) = length (up_documents c).
Proof.
  intros Hin. unfold batch_calls in Hin.
  apply in_map_iff in Hin as (b & <- & Hb).
  apply batch_ranges_bounds in Hb as (H1 & H2 & H3).
  destruct (main_loop_lengths ollama printed0 objects) as (Hi & He & Hm).
  cbn zeta in Hi, He, Hm.
  cbn [batch_call up_documents up_ids up_embeddings up_metadatas].
  rewrite !slice_length, Hi, He, Hm. lia.
Qed.

Lemma upsert_calls_aligned_witness :
  let st := main_loop always_embedded [] sample_shared in
  length (up_ids (batch_call st (0, 3)))
  = length (up_documents (batch_call st (0, 3))).
Proof.
  intros st.
  apply (upsert_calls_aligned always_embedded [] sample_shared
           (batch_call st (0, 3))).
  vm_compute. left. reflexivity.
Defined.

(** ** The audit report *)



(** ** The retriever's edge cases *)

Lemma format_loop_short results docs : forall metas done_metas context_parts,
  first_metadatas results = Reply (map Some done_metas ++ map Some metas) ->
  length metas < length docs ->
  format_loop results (length done_metas) docs context_parts
  = Failure "IndexError".
Proof.
  induction docs as [|doc docs IH]; intros metas done_metas parts Hfirst Hlen;
    [cbn in Hlen; lia|].
  cbn [format_loop]. rewrite Hfirst.
  rewrite lookup_app_r by (by rewrite length_map).
  rewrite length_map, Nat.sub_diag.
  destruct metas as [|meta metas]; [done|]. cbn [map lookup list_lookup].
  replace (S (length done_metas)) with (length (done_metas ++ [meta]))
    by (rewrite length_app; cbn; lia).
  apply (IH metas (done_metas ++ [meta])).
  - rewrite Hfirst, map_app, <- app_assoc. done.
  - cbn in Hlen. lia.
Qed.

(** [X14] Edge cases of the retriever once the query is embedded.  An
    exception of the store is reported and gives the empty context.  An
    answer without documents ([None], no list, or an empty first list)
    gives the empty context and no report, whatever the metadata.  An
    answer with fewer metadata entries than documents, or with no metadata
    at all, is reported and gives the empty context: the blocks already
    formatted are dropped. *)
Theorem get_context_edge_cases {Vec : Type} (embed : string -> outcome Vec)
    (query : Vec -> nat -> outcome QueryResult)
    (query_text : string) (n_results : nat) (v : Vec) :
  embed query_text = Ok v ->
  (forall e, query v n_results = Error e ->
     get_context embed query query_text n_results
     = ([ChRetrieveError e], Some ""))
  /\ (forall results,
        query v n_results = Ok results ->
        res_documents results = None \/ res_documents results = Some []
        \/ (exists more, res_documents results = Some ([] :: more)) ->
        get_context embed query query_text n_results = ([], Some ""))
  /\ (forall docs metas more_docs more_metas,
        query v n_results
        = Ok {| res_documents := Some (docs :: more_docs);
                res_metadatas := Some (map Some metas :: more_metas) |} ->
        length metas < length docs ->
        get_context embed query query_text n_results
        = ([ChRetrieveError "IndexError"], Some ""))
  /\ (forall doc docs more_docs,
        query v n_results
        = Ok {| res_documents := Some ((doc :: docs) :: more_docs);
                res_metadatas := None |} ->
        get_context embed query query_text n_results
        = ([ChRetrieveError "TypeError"], Some "")).
Proof.
  intros He. unfold get_context, get_context_body. rewrite He.
  split; [|split; [|split]].
  - by intros e ->.
  - intros results -> [->|[->|[more ->]]]; done.
  - intros docs metas more_docs more_metas -> Hlen. cbn [res_documents].
    by rewrite (format_loop_short _ docs metas [] []).
  - by intros doc docs more_docs ->.
Qed.

Lemma get_context_edge_cases_witness :
  get_context (fun _ => Ok [0%Z]) (fun _ _ => Ok sample_short_hits)
    "what is process injection?" 3
  = ([ChRetrieveError "IndexError"], Some "").
Proof.
  destruct (get_context_edge_cases (fun _ => Ok [0%Z])
              (fun _ _ => Ok sample_short_hits)
              "what is process injection?" 3 [0%Z] eq_refl)
    as (_ & _ & Hshort & _).
  apply (Hshort ["First document"; "Second document"]
           [ build_metadata (technique "attack-pattern--1" "T1055")
               (Some "T1055") ] [] []).
  - reflexivity.
  - cbn. lia.
Defined.

(** [X15] The three ways [get_context] ends.  It returns a context and
    writes nothing, or it writes one error line and returns the empty
    context, or a [KeyboardInterrupt] leaves it; the last happens exactly
    when the embedding request or the store query is interrupted.  No
    [Exception] leaves the function. *)
Theorem get_context_outcomes {Vec : Type} (embed : string -> outcome Vec)
    (query : Vec -> nat -> outcome QueryResult)
    (query_text : string) (n_results : nat) :
  let r := get_context embed query query_text n_results in
  ((exists context, r = ([], Some context))
   \/ (exists e, r = ([ChRetrieveError e], Some ""))
   \/ r = ([], None))
  /\ (r.2 = None <->
      embed query_text = Interrupt
      \/ exists v, embed query_text = Ok v /\ query v n_results = Interrupt).
Proof.
  cbn zeta. unfold get_context, get_context_body.
  destruct (embed query_text) as [v|e|].
  - destruct (query v n_results) as [results|e|] eqn:Hq.
    + destruct (match res_documents results with
                | Some (docs :: _) => format_loop results 0 docs []
                | _ => Reply []
                end) as [parts|e]; cbn.
      * split; [eauto|]. split; [done|]. intros [?|(w & [= <-] & Hw)]; [done|].
        congruence.
      * split; [eauto|]. split; [done|]. intros [?|(w & [= <-] & Hw)]; [done|].
        congruence.
    + cbn. split; [eauto|]. split; [done|].
      intros [?|(w & [= <-] & Hw)]; [done|]. congruence.
    + cbn. split; [auto|]. split; [|done]. intros _. right. eauto.
  - cbn. split; [eauto|]. split; [done|]. intros [?|(w & ? & _)]; done.
  - cbn. split; [auto|]. split; [|done]. intros _. by left.
Qed.

(** ** Input handling in the assistant loop *)

Lemma lstrip_first s c :
  first_char (lstrip s) = Some c -> is_space c = false.
Proof.
  induction s as [|a s IH]; [done|]. cbn [lstrip].
  destruct (is_space a) eqn:E; [done|]. cbn. by intros [= <-].
Qed.

Lemma lstrip_split s :
  exists l, s = l +:+ lstrip s /\ all_space l = true.
Proof.
  induction s as [|a s (l & Hl & Hs)]; [by exists ""|]. cbn [lstrip].
  destruct (is_space a) eqn:E.
  - exists (String a l). rewrite append_cons, <- Hl. cbn. by rewrite E, Hs.
  - by exists "".
Qed.

Lemma lstrip_fixed s :
  (forall c, first_char s = Some c -> is_space c = false) -> lstrip s = s.
Proof.
  destruct s as [|a s]; [done|]. intros H. cbn.
  by rewrite (H a eq_refl).
Qed.

Lemma lstrip_empty s : lstrip s = "" <-> all_space s = true.
Proof.
  induction s as [|a s IH]; [done|]. cbn.
  destruct (is_space a); cbn; [done|]. split; discriminate.
Qed.

Lemma lstrip_all_space s : all_space (lstrip s) = true -> lstrip s = "".
Proof.
  induction s as [|a s IH]; [done|]. cbn [lstrip].
  destruct (is_space a) eqn:E; [done|]. cbn. by rewrite E.
Qed.

Lemma rstrip_empty s : rstrip s = "" <-> all_space s = true.
Proof.
  induction s as [|a s IH]; [done|]. cbn.
  destruct (rstrip s) as [|b k] eqn:E.
  - destruct (is_space a); cbn; [|split; discriminate].
    split; [intros _; by apply IH|done].
  - split; [discriminate|]. intros [_ H]%andb_true_iff.
    apply IH in H. discriminate H.
Qed.

Lemma rstrip_first s c :
  first_char (rstrip s) = Some c -> first_char s = Some c.
Proof.
  destruct s as [|a s]; [done|]. cbn.
  destruct (rstrip s); [destruct (is_space a)|]; done.
Qed.

Lemma rstrip_last s c :
  last_char (rstrip s) = Some c -> is_space c = false.
Proof.
  induction s as [|a s IH]; [done|]. cbn [rstrip].
  destruct (rstrip s) as [|b k] eqn:E.
  - destruct (is_space a) eqn:Ea; [done|]. cbn. by intros [= <-].
  - cbn [last_char]. exact IH.
Qed.

Lemma rstrip_split s :
  exists r, s = rstrip s +:+ r /\ all_space r = true.
Proof.
  induction s as [|a s (r & Hr & Hs)]; [by exists ""|]. cbn [rstrip].
  destruct (rstrip s) as [|b k] eqn:E.
  - rewrite append_empty in Hr. subst r. destruct (is_space a) eqn:Ea.
    + exists (String a s). split; [done|]. cbn. by rewrite Ea, Hs.
    + exists s. by split.
  - exists r. split; [|done]. rewrite append_cons. by rewrite <- Hr.
Qed.

Lemma rstrip_idem s : rstrip (rstrip s) = rstrip s.
Proof.
  induction s as [|a s IH]; [done|]. cbn [rstrip].
  destruct (rstrip s) as [|b k] eqn:E.
  - destruct (is_space a) eqn:Ea; [done|]. cbn. by rewrite Ea.
  - cbn [rstrip] in IH |- *. by rewrite IH.
Qed.

(** What [strip] does: it removes white space at both ends and nothing
    else, leaves no white space at either end, is empty exactly on blank
    strings, and changes nothing when applied again. *)
Lemma strip_spec (s : string) :
  (exists l r, s = l +:+ strip s +:+ r
               /\ all_space l = true /\ all_space r = true)
  /\ (forall c, first_char (strip s) = Some c -> is_space c = false)
  /\ (forall c, last_char (strip s) = Some c -> is_space c = false)
  /\ (strip s = "" <-> all_space s = true)
  /\ strip (strip s) = strip s.
Proof.
  unfold strip. split; [|split; [|split; [|split]]].
  - destruct (lstrip_split s) as (l & Hl & Hls).
    destruct (rstrip_split (lstrip s)) as (r & Hr & Hrs).
    exists l, r. by rewrite <- Hr, <- Hl.
  - intros c Hc. by apply rstrip_first, lstrip_first in Hc.
  - apply rstrip_last.
  - rewrite rstrip_empty. split.
    + intros H. by apply lstrip_empty, lstrip_all_space.
    + intros H. apply lstrip_empty in H. by rewrite H.
  - rewrite lstrip_fixed, rstrip_idem; [done|].
    intros c Hc. by apply rstrip_first, lstrip_first in Hc.
Qed.

Section TurnFacts.

Context {Vec : Type}.

Lemma step_blank (line : string) :
  all_space line = true ->
  @step Vec AwaitingInput (EvInput (Ok line)) = Some (AwaitingInput, []).
Proof.
  intros Hl. cbn [step].
  destruct (strip_spec line) as (_ & _ & _ & Hempty & _).
  apply Hempty in Hl. by rewrite Hl.
Qed.

Lemma run_chunks (contents : list string) : forall full,
  @run Vec (Generating (Streaming full))
    (map (fun c => EvChunk (Ok (Some c))) contents)
  = Some (Generating (Streaming (foldl String.append full contents)),
          map ChContent contents).
Proof.
  induction contents as [|c contents IH]; intros full; [done|].
  cbn [map run step foldl]. by rewrite IH.
Qed.

Lemma run_app (evs1 evs2 : list (@event Vec)) : forall s s1 l1,
  run s evs1 = Some (s1, l1) ->
  run s (evs1 ++ evs2)
  = match run s1 evs2 with
    | Some (s2, l2) => Some (s2, l1 ++ l2)
    | None => None
    end.
Proof.
  induction evs1 as [|ev evs1 IH]; intros s s1 l1 Hrun.
  - cbn in Hrun. injection Hrun as <- <-. cbn.
    by destruct (run s evs2) as [[]|].
  - cbn [run app] in Hrun |- *.
    destruct (step s ev) as [[s' l']|]; [|done].
    destruct (run s' evs1) as [[s'' l'']|] eqn:E; [|done].
    injection Hrun as <- <-. rewrite (IH s' s'' l'' E).
    destruct (run s'' evs2) as [[s2 l2]|]; [|done].
    by rewrite app_assoc.
Qed.



End TurnFacts.

(** [X11] What the loop does with a line of input.  A line of white space
    only is skipped: nothing is written and nothing is retrieved, also for
    any number of such lines in a row.  A line that holds an exit keyword
    once stripped ends the session without a line of output.  Any other line
    starts a retrieval with the stripped line. *)
Theorem input_handling {Vec : Type} (line : string) :
  (all_space line = true ->
     @step Vec AwaitingInput (EvInput (Ok line)) = Some (AwaitingInput, []))
  /\ (is_exit_command (strip line) = true ->
        @step Vec AwaitingInput (EvInput (Ok line)) = Some (Terminated, []))
  /\ (all_space line = false -> is_exit_command (strip line) = false ->
        @step Vec AwaitingInput (EvInput (Ok line))
        = Some (Retrieving (strip line), [ChSearching]))
  /\ (forall lines : list string,
        Forall (fun l => all_space l = true) lines ->
        @run Vec AwaitingInput (map (fun l => EvInput (Ok l)) lines)
        = Some (AwaitingInput, [])).
Proof.
  split; [apply step_blank|]. split; [|split].
  - intros He. cbn [step]. by rewrite He.
  - intros Hs He. cbn [step]. rewrite He.
    destruct (strip_spec line) as (_ & _ & _ & Hempty & _).
    unfold nonempty. destruct (String.eqb_spec (strip line) "") as [E|_];
      [|done].
    apply Hempty in E. congruence.
  - intros lines Hall. induction Hall as [|l lines Hl _ IH]; [done|].
    cbn [map run]. by rewrite (step_blank l Hl), IH.
Qed.

Lemma input_handling_witness :
  @step (list Z) AwaitingInput (EvInput (Ok "  what is T1055?  "))
  = Some (Retrieving "what is T1055?", [ChSearching]).
Proof.
  destruct (@input_handling (list Z) "  what is T1055?  ")
    as (_ & _ & Hask & _).
  exact (Hask eq_refl eq_refl).
Defined.

(** [X12] The stream of an answer.  Once the request has returned, the
    contents received are written in the order of arrival and accumulated
    in that order.  When the stream then raises an exception, what was
    written stays written, the error is reported and the loop awaits input;
    when it is interrupted the session ends; when it ends the loop awaits
    input. *)
Theorem stream_accumulates {Vec : Type} (messages : list (string * string))
    (contents : list string) :
  let started :=
    EvChat (Ok ()) :: map (fun c => @EvChunk Vec (Ok (Some c))) contents in
  run (Generating (Calling messages)) started
  = Some (Generating (Streaming (received contents)),
          ChAssistant :: map ChContent contents)
  /\ (forall e,
        run (Generating (Calling messages)) (started ++ [EvChunk (Error e)])
        = Some (AwaitingInput,
                ChAssistant :: map ChContent contents ++ [ChError e]))
  /\ run (Generating (Calling messages)) (started ++ [EvChunk Interrupt])
     = Some (Terminated, ChAssistant :: map ChContent contents ++ [ChExiting])
  /\ run (Generating (Calling messages)) (started ++ [EvChunk (Ok None)])
     = Some (AwaitingInput,
             ChAssistant :: map ChContent contents ++ [ChEndOfAnswer]).
Proof.
  intros started.
  assert (H : run (Generating (Calling messages)) started
    = Some (Generating (Streaming (received contents)),
            ChAssistant :: map ChContent contents)).
  { subst started. cbn [run step]. by rewrite run_chunks. }
  split; [done|].
  repeat split; intros; by rewrite (run_app _ _ _ _ _ H).
Qed.



(** ** test_run.py *)

Lemma test_run_loop_ok results docs : forall metas names done_metas,
  first_metadatas results = Reply (map Some done_metas ++ map Some metas) ->
  Forall2 (fun meta name => meta_name meta = Some name) metas names ->
  length docs = length metas ->
  test_run_loop results (length done_metas) docs
  = (listing (S (length done_metas)) docs names, Returned).
Proof.
  induction docs as [|doc docs IH]; intros metas names done_metas Hfirst Hn Hlen.
  - cbn. by destruct names.
  - destruct Hn as [|meta name metas names Hname Hn]; [done|].
    cbn [test_run_loop listing]. rewrite Hfirst.
    rewrite lookup_app_r by (by rewrite length_map).
    rewrite length_map, Nat.sub_diag. cbn [map lookup list_lookup].
    rewrite Hname.
    replace (S (length done_metas)) with (length (done_metas ++ [meta]))
      by (rewrite length_app; cbn; lia).
    rewrite (IH metas names (done_metas ++ [meta])); [done| |done|].
    + rewrite Hfirst, map_app, <- app_assoc. done.
    + cbn in Hlen. lia.
Qed.

Lemma test_run_loop_short results docs : forall metas names done_metas,
  first_metadatas results = Reply (map Some done_metas ++ map Some metas) ->
  Forall2 (fun meta name => meta_name meta = Some name) metas names ->
  length metas < length docs ->
  test_run_loop results (length done_metas) docs
  = (listing (S (length done_metas)) docs names, Uncaught "IndexError").
Proof.
  induction docs as [|doc docs IH]; intros metas names done_metas Hfirst Hn Hlen;
    [cbn in Hlen; lia|].
  cbn [test_run_loop]. rewrite Hfirst.
  rewrite lookup_app_r by (by rewrite length_map).
  rewrite length_map, Nat.sub_diag.
  destruct Hn as [|meta name metas names Hname Hn]; [done|].
  cbn [map lookup list_lookup listing]. rewrite Hname.
  replace (S (length done_metas)) with (length (done_metas ++ [meta]))
    by (rewrite length_app; cbn; lia).
  rewrite (IH metas names (done_metas ++ [meta])); [done| |done|].
  - rewrite Hfirst, map_app, <- app_assoc. done.
  - cbn in Hlen. lia.
Qed.

Lemma listing_length docs : forall names first,
  length docs = length names ->
  length (listing first docs names) = 2 * length docs.
Proof.
  induction docs as [|doc docs IH]; intros [|name names] first Hlen;
    try done.
  cbn [listing length]. cbn [length] in Hlen. rewrite IH by lia. lia.
Qed.

(** [X17] The listing of the test script.  When the four calls succeed and
    the store returns documents with as many named metadata entries, the
    script writes, for every returned pair in order, the line
    "Result <i>: <name>" numbered from 1 and then the document, two lines
    per pair, and returns. *)
Theorem test_run_listing {Vec : Type} (embed : string -> reply Vec)
    (query : Vec -> nat -> reply QueryResult) (u1 u2 : unit) (v : Vec)
    (docs : list string) (metas : list Metadata) (names : list string)
    (more_docs : list (list string))
    (more_metas : list (list (option Metadata))) :
  embed TEST_QUERY = Reply v ->
  query v 3 = Reply {| res_documents := Some (docs :: more_docs);
                       res_metadatas := Some (map Some metas :: more_metas) |} ->
  Forall2 (fun meta name => meta_name meta = Some name) metas names ->
  length docs = length metas ->
  test_run (Reply u1) (Reply u2) embed query = (listing 1 docs names, Returned)
  /\ length (listing 1 docs names) = 2 * length docs.
Proof.
  intros He Hq Hn Hlen. unfold test_run. rewrite He, Hq. cbn [res_documents].
  split.
  - by rewrite (test_run_loop_ok _ docs metas names []).
  - apply listing_length. rewrite Hlen. by eapply Forall2_length.
Qed.

Lemma test_run_listing_witness :
  test_run (Reply ()) (Reply ()) (fun _ => Reply [0%Z])
    (fun _ _ => Reply sample_hits)
  = ([TrResult 1 "Technique"; TrDocument "First document";
      TrResult 2 "Technique"; TrDocument "Second document"], Returned).
Proof.
  destruct (test_run_listing (fun _ => Reply [0%Z])
              (fun _ _ => Reply sample_hits) () () [0%Z]
              ["First document"; "Second document"]
              [ build_metadata (technique "attack-pattern--1" "T1055")
                  (Some "T1055");
                build_metadata (technique "attack-pattern--3" "T1547")
                  (Some "T1547") ]
              ["Technique"; "Technique"] [] [] eq_refl eq_refl)
    as [Hrun _].
  - repeat constructor.
  - reflexivity.
  - exact Hrun.
Defined.

(** [X18] The test script does not degrade.  A failure of the client, of
    the collection lookup, of the embedding request or of the query ends the
    script with the uncaught exception before anything is written; when the
    store returns fewer metadata entries than documents, the pairs that are
    complete are written and the script then ends with an [IndexError]. *)
Theorem test_run_aborts {Vec : Type} (embed : string -> reply Vec)
    (query : Vec -> nat -> reply QueryResult) (u1 u2 : unit) :
  (forall collection e,
     test_run (Failure e) collection embed query = ([], Uncaught e))
  /\ (forall e,
        test_run (Reply u1) (Failure e) embed query = ([], Uncaught e))
  /\ (forall e,
        embed TEST_QUERY = Failure e ->
        test_run (Reply u1) (Reply u2) embed query = ([], Uncaught e))
  /\ (forall v e,
        embed TEST_QUERY = Reply v -> query v 3 = Failure e ->
        test_run (Reply u1) (Reply u2) embed query = ([], Uncaught e))
  /\ (forall v docs metas names more_docs more_metas,
        embed TEST_QUERY = Reply v ->
        query v 3
        = Reply {| res_documents := Some (docs :: more_docs);
                   res_metadatas := Some (map Some metas :: more_metas) |} ->
        Forall2 (fun meta name => meta_name meta = Some name) metas names ->
        length metas < length docs ->
        test_run (Reply u1) (Reply u2) embed query
        = (listing 1 (take (length metas) docs) names, Uncaught "IndexError")).
Proof.
  split; [done|]. split; [done|]. unfold test_run.
  split; [by intros e ->|]. split; [by intros v e -> ->|].
  intros v docs metas names more_docs more_metas -> -> Hn Hlen.
  cbn [res_documents].
  rewrite (test_run_loop_short _ docs metas names []); [|done..].
  f_equal. cbn [length]. apply Forall2_length in Hn.
  clear -Hn Hlen. generalize dependent names. generalize dependent docs.
  generalize (S O).
  induction metas as [|m metas IH]; intros n docs Hlen names Hn.
  - destruct names; [|done]. by destruct docs.
  - destruct names as [|name names]; [done|].
    destruct docs as [|doc docs]; [cbn in Hlen; lia|].
    cbn [length take listing]. f_equal. f_equal. apply IH; cbn in *; lia.
Qed.

Lemma test_run_aborts_witness :
  test_run (Reply ()) (Reply ()) (fun _ => Reply [0%Z])
    (fun _ _ => Reply sample_short_hits)
  = ([TrResult 1 "Technique"; TrDocument "First document"],
     Uncaught "IndexError").
Proof.
  destruct (test_run_aborts (fun _ => Reply [0%Z])
              (fun _ _ => Reply sample_short_hits) () ())
    as (_ & _ & _ & _ & Hshort).
  apply (Hshort [0%Z] ["First document"; "Second document"]
           [ build_metadata (technique "attack-pattern--1" "T1055")
               (Some "T1055") ]
           ["Technique"] [] []).
  - reflexivity.
  - reflexivity.
  - repeat constructor.
  - cbn. lia.
Defined.
